(** * agenticloop: the supervisor loops [claude_loop.py], [fixer.py], [maker.py]

    A shallow embedding of the three scripts and the properties of their
    log parsing, usage accounting and loop policy.

    Conventions of the model.
    - A Python [str] is a [string]; a character is a code point below 256.
      White space and digits are Python's on that range. The case mappings
      are Python's on the ASCII range, and a code point from 128 up is
      left as it is: Python maps none of them to an ASCII letter of the
      sentinels or of the patterns.
    - A Python exception is a value of [exn]; code that may raise returns
      a [result]; a [try] with its [except] clause is [try_except].
    - [json.loads], [re], [int], [float], [str.strip] and [datetime] are
      library code: they are modelled by executable definitions in
      [Module Py]. Integers are unbounded: the interpreter's limit on the
      digits of an integer literal and its limit on nesting are taken as
      unset. A [float] is a binary64 number with the operations of
      [Stdlib.Floats.SpecFloat].
    - A [\u] escape of a code point from 256 up denotes a character that
      the strings of the model do not have. The decoder of the model
      refuses a line with such an escape, where [json.loads] decodes it:
      the properties are stated of lines that the model decodes, or of
      lines without [\u] ([has_u_escape]).
    - The zone is an offset from UTC, [utcoffset]: the offset that the
      zone has at the time whose epoch is taken.
    - A run is one in which the child is started and the log is written
      and read back as text: the failures of the operating system in
      these steps, and a log that is no valid UTF-8, are not followed.
    - What a supervisor does is a list of [event]s, the spawns of the child
      and the sleeps; what it prints changes nothing that it reads and is
      left out. *)

From Stdlib Require Import String Ascii List ZArith QArith Lia Bool Arith.
From Stdlib Require SpecFloat.
Import ListNotations.
Local Open Scope string_scope.

(** ** Exceptions and results *)

Inductive exn : Type :=
| JSONDecodeError
| ValueError
| KeyError
| IndexError
| AttributeError
| TypeError
| NameError
| OverflowError
| OSError
| TimeoutExpired.

Inductive result (A : Type) : Type :=
| Ret (a : A)
| Raise (e : exn).
Arguments Ret {A} a.
Arguments Raise {A} e.

Definition bind {A B} (m : result A) (k : A -> result B) : result B :=
  match m with
  | Ret a => k a
  | Raise e => Raise e
  end.

Notation "x <- m ;; k" := (bind m (fun x => k))
  (at level 61, m at next level, right associativity).

(** [try: body except handled: handler]: [JSONDecodeError] is a subclass of
    [ValueError], so a handler for [ValueError] catches both. *)
Definition exn_eqb (a b : exn) : bool :=
  match a, b with
  | JSONDecodeError, JSONDecodeError | ValueError, ValueError
  | KeyError, KeyError | IndexError, IndexError
  | AttributeError, AttributeError | TypeError, TypeError
  | NameError, NameError | OverflowError, OverflowError
  | OSError, OSError | TimeoutExpired, TimeoutExpired => true
  | _, _ => false
  end.

Definition isinstance (e cls : exn) : bool :=
  exn_eqb e cls ||
  match e, cls with
  | JSONDecodeError, ValueError => true
  | _, _ => false
  end.

Definition try_except {A} (body : result A) (handled : list exn)
    (handler : exn -> result A) : result A :=
  match body with
  | Ret a => Ret a
  | Raise e => if existsb (isinstance e) handled then handler e else Raise e
  end.

(** ** The Python library, as far as the scripts use it *)

Module Py.

(** *** Characters *)

Definition code (c : ascii) : nat := nat_of_ascii c.

Definition between (lo hi : nat) (c : ascii) : bool :=
  (lo <=? code c)%nat && (code c <=? hi)%nat.

(** [str.isspace] and the [\s] class: TAB..CR, FS..US, the space, NEL and
    the no-break space. *)
Definition isspace (c : ascii) : bool :=
  between 9 13 c || between 28 32 c || (code c =? 133)%nat
  || (code c =? 160)%nat.

(** The [\d] class and the digits [int] accepts. *)
Definition isdigit (c : ascii) : bool := between 48 57 c.

Definition digit_val (c : ascii) : Z := Z.of_nat (code c - 48).

Definition upper_char (c : ascii) : ascii :=
  if between 97 122 c then ascii_of_nat (code c - 32) else c.

Definition lower_char (c : ascii) : ascii :=
  if between 65 90 c then ascii_of_nat (code c + 32) else c.

Definition newline : ascii := ascii_of_nat 10.

(** *** Strings *)

Fixpoint upper (s : string) : string :=
  match s with
  | EmptyString => EmptyString
  | String c s' => String (upper_char c) (upper s')
  end.

Fixpoint lower (s : string) : string :=
  match s with
  | EmptyString => EmptyString
  | String c s' => String (lower_char c) (lower s')
  end.

Fixpoint rev_onto (s acc : string) : string :=
  match s with
  | EmptyString => acc
  | String c s' => rev_onto s' (String c acc)
  end.

Definition rev (s : string) : string := rev_onto s EmptyString.

Fixpoint lstrip (s : string) : string :=
  match s with
  | EmptyString => EmptyString
  | String c s' => if isspace c then lstrip s' else s
  end.

(** [rstrip] keeps a character when it is no white space or when something
    is kept after it. *)
Fixpoint rstrip (s : string) : string :=
  match s with
  | EmptyString => EmptyString
  | String c s' =>
      match rstrip s' with
      | EmptyString => if isspace c then EmptyString else String c EmptyString
      | r => String c r
      end
  end.

Definition strip (s : string) : string := rstrip (lstrip s).

(** [s.startswith(p)] *)
Fixpoint startswith (p s : string) : bool :=
  match p, s with
  | EmptyString, _ => true
  | String a p', String b s' => Ascii.eqb a b && startswith p' s'
  | String _ _, EmptyString => false
  end.

(** [p in s] for two strings *)
Fixpoint contains (p s : string) : bool :=
  startswith p s ||
  match s with
  | EmptyString => false
  | String _ s' => contains p s'
  end.

(** [s[:n]] and [s[n:]] for [0 <= n] *)
Fixpoint take (n : nat) (s : string) : string :=
  match n, s with
  | S n', String c s' => String c (take n' s')
  | _, _ => EmptyString
  end.

Fixpoint drop (n : nat) (s : string) : string :=
  match n, s with
  | S n', String _ s' => drop n' s'
  | _, _ => s
  end.

(** [s.rfind(c)] for a one-character needle: the last index of [c], or
    [None] where Python answers -1. *)
Fixpoint rfind (c : ascii) (s : string) : option nat :=
  match s with
  | EmptyString => None
  | String a s' =>
      match rfind c s' with
      | Some i => Some (S i)
      | None => if Ascii.eqb a c then Some 0%nat else None
      end
  end.

(** [s.split(sep, 1)[1]] for a one-character separator: what follows the
    first separator; [IndexError] when there is none. *)
Fixpoint after_first (sep : ascii) (s : string) : result string :=
  match s with
  | EmptyString => Raise IndexError
  | String a s' => if Ascii.eqb a sep then Ret s' else after_first sep s'
  end.

Definition starts_with_digit (s : string) : bool :=
  match s with
  | String c _ => isdigit c
  | EmptyString => false
  end.

(** *** [int(str)]: optional white space, an optional sign, digits with
    single underscores between them, optional white space. The white space
    of [int] is that of [str.isspace] but for FS..US, which it refuses. *)

Definition int_space (c : ascii) : bool :=
  between 9 13 c || (code c =? 32)%nat || (code c =? 133)%nat
  || (code c =? 160)%nat.

Fixpoint skip_int_space (s : string) : string :=
  match s with
  | EmptyString => EmptyString
  | String c s' => if int_space c then skip_int_space s' else s
  end.

Fixpoint all_int_space (s : string) : bool :=
  match s with
  | EmptyString => true
  | String c s' => int_space c && all_int_space s'
  end.

(** The digits, and after them nothing but white space up to the end *)
Fixpoint digits_val (acc : Z) (prev_digit : bool) (s : string) : option Z :=
  match s with
  | EmptyString => if prev_digit then Some acc else None
  | String c s' =>
      if isdigit c then digits_val (acc * 10 + digit_val c) true s'
      else if Ascii.eqb c "_" then
        (if prev_digit then digits_val acc false s' else None)
      else if prev_digit && all_int_space s then Some acc
      else None
  end.

(** The digits of a number with its sign *)
Definition signed (sign : Z) (ds : string) : result Z :=
  if starts_with_digit ds then
    match digits_val 0 false ds with
    | Some n => Ret (sign * n)%Z
    | None => Raise ValueError
    end
  else Raise ValueError.

(** From the sign on *)
Definition int_body (body : string) : result Z :=
  match body with
  | String c r =>
      if Ascii.eqb c "-" then signed (-1) r
      else if Ascii.eqb c "+" then signed 1 r
      else signed 1 body
  | EmptyString => Raise ValueError
  end.

Definition int_of_str (s : string) : result Z :=
  int_body (skip_int_space s).

(** *** JSON values, as [json.loads] builds them

    A number with a fraction or an exponent is a float: [JFloat m e] is the
    literal's value [m * 10^e], kept exact; [JNonFinite] is one of [NaN],
    [Infinity], [-Infinity]. An object keeps its members in source order;
    as in a [dict] built from them, the last binding of a key is the one
    looked up. *)

#[warnings="-register-all"]
Inductive json : Type :=
| JNull
| JBool (b : bool)
| JInt (z : Z)
| JFloat (m e : Z)
| JNonFinite
| JString (s : string)
| JArray (l : list json)
| JObject (d : list (string * json)).

Fixpoint dict_get (k : string) (d : list (string * json)) : option json :=
  match d with
  | [] => None
  | (k', v) :: d' =>
      match dict_get k d' with
      | Some v' => Some v'
      | None => if String.eqb k' k then Some v else None
      end
  end.

Definition dict_mem (k : string) (d : list (string * json)) : bool :=
  match dict_get k d with Some _ => true | None => false end.

(** [len] of a dict: its distinct keys. *)
Fixpoint dict_len (d : list (string * json)) : nat :=
  match d with
  | [] => 0
  | (k, _) :: d' => (if dict_mem k d' then 0 else 1) + dict_len d'
  end.

(** *** The decoder *)

Definition is_json_ws (c : ascii) : bool :=
  Ascii.eqb c " " || (code c =? 9)%nat || (code c =? 10)%nat
  || (code c =? 13)%nat.

Fixpoint skip_ws (s : string) : string :=
  match s with
  | EmptyString => EmptyString
  | String c s' => if is_json_ws c then skip_ws s' else s
  end.

Definition hex_val (c : ascii) : option nat :=
  if isdigit c then Some (code c - 48)%nat
  else if between 97 102 c then Some (code c - 87)%nat
  else if between 65 70 c then Some (code c - 55)%nat
  else None.

Definition hex4 (a b c d : ascii) : option nat :=
  match hex_val a, hex_val b, hex_val c, hex_val d with
  | Some x, Some y, Some z, Some w => Some (((x * 16 + y) * 16 + z) * 16 + w)%nat
  | _, _, _, _ => None
  end.

Definition simple_escape (c : ascii) : option ascii :=
  if Ascii.eqb c "034" then Some "034"%char
  else if Ascii.eqb c "\" then Some "\"%char
  else if Ascii.eqb c "/" then Some "/"%char
  else if Ascii.eqb c "b" then Some (ascii_of_nat 8)
  else if Ascii.eqb c "f" then Some (ascii_of_nat 12)
  else if Ascii.eqb c "n" then Some (ascii_of_nat 10)
  else if Ascii.eqb c "r" then Some (ascii_of_nat 13)
  else if Ascii.eqb c "t" then Some (ascii_of_nat 9)
  else None.

(** [expect c s]: what follows the character [c] at the head of [s] *)
Definition expect (c : ascii) (s : string) : option string :=
  match s with
  | String a r => if Ascii.eqb a c then Some r else None
  | EmptyString => None
  end.

(** The text of a string literal after its opening quote, and what follows
    the closing quote. A raw control character is refused (strict mode).
    A [\u] escape of a code point from 256 up is refused as well: it
    denotes a character outside the alphabet of the model, and nothing is
    stated of a line with one that the model does not decode. *)
Fixpoint parse_string (s : string) : option (string * string) :=
  match s with
  | EmptyString => None
  | String c s' =>
      if Ascii.eqb c "034" then Some (EmptyString, s')
      else if Ascii.eqb c "\" then
        match s' with
        | EmptyString => None
        | String e s'' =>
            if Ascii.eqb e "u" then
              match s'' with
              | String h1 (String h2 (String h3 (String h4 s3))) =>
                  match hex4 h1 h2 h3 h4 with
                  | Some n =>
                      if (n <? 256)%nat then
                        match parse_string s3 with
                        | Some (t, r) => Some (String (ascii_of_nat n) t, r)
                        | None => None
                        end
                      else None
                  | None => None
                  end
              | _ => None
              end
            else
              match simple_escape e with
              | Some x =>
                  match parse_string s'' with
                  | Some (t, r) => Some (String x t, r)
                  | None => None
                  end
              | None => None
              end
        end
      else if (code c <? 32)%nat then None
      else
        match parse_string s' with
        | Some (t, r) => Some (String c t, r)
        | None => None
        end
  end.

(** The longest prefix of digits, with its value and its length. *)
Fixpoint span_digits (acc : Z) (n : nat) (s : string) : Z * nat * string :=
  match s with
  | String c s' =>
      if isdigit c then span_digits (acc * 10 + digit_val c) (S n) s'
      else (acc, n, s)
  | EmptyString => (acc, n, s)
  end.

(** The digits of an integer part: [0] alone, or digits that do not begin
    with [0] *)
Definition int_part (s : string) : option (Z * string) :=
  match s with
  | String c r =>
      if Ascii.eqb c "0" then Some (0%Z, r)
      else if isdigit c then
        let '(v, _, r') := span_digits 0 0 s in Some (v, r')
      else None
  | EmptyString => None
  end.

(** A point and digits after the integer part of value [iv]: the digits
    joined to [iv], and how many they are *)
Definition frac_part (iv : Z) (s : string) : option (Z * nat * string) :=
  match expect "." s with
  | Some r =>
      if starts_with_digit r then Some (span_digits iv 0 r) else None
  | None => None
  end.

(** An exponent: e or E, an optional sign, digits *)
Definition exp_part (s : string) : option (Z * string) :=
  match s with
  | String c r =>
      if Ascii.eqb c "e" || Ascii.eqb c "E" then
        let '(sg, ds) :=
          match expect "-" r, expect "+" r with
          | Some r', _ => ((-1)%Z, r')
          | None, Some r' => (1%Z, r')
          | None, None => (1%Z, r)
          end in
        if starts_with_digit ds then
          let '(v, _, r') := span_digits 0 0 ds in Some ((sg * v)%Z, r')
        else None
      else None
  | EmptyString => None
  end.

(** A number after its sign: the integer part, then optionally a fraction,
    then optionally an exponent. A part that is optional is taken only
    when it is complete. *)
Definition unsigned_number (neg : bool) (s : string)
  : option (json * string) :=
  let sgn (v : Z) := if neg then (- v)%Z else v in
  match int_part s with
  | None => None
  | Some (iv, r1) =>
      match frac_part iv r1 with
      | Some (mant, n, r2) =>
          match exp_part r2 with
          | Some (ev, r3) =>
              Some (JFloat (sgn mant) (ev - Z.of_nat n)%Z, r3)
          | None => Some (JFloat (sgn mant) (- Z.of_nat n)%Z, r2)
          end
      | None =>
          match exp_part r1 with
          | Some (ev, r3) => Some (JFloat (sgn iv) ev, r3)
          | None => Some (JInt (sgn iv), r1)
          end
      end
  end.

(** A number at the head of [s], with its optional minus *)
Definition parse_number (s : string) : option (json * string) :=
  match expect "-" s with
  | Some r => unsigned_number true r
  | None => unsigned_number false s
  end.

(** [literal lit v s]: the constant [lit] at the head of [s] *)
Definition literal (lit : string) (v : json) (s : string)
  : option (json * string) :=
  if startswith lit s then Some (v, drop (String.length lit) s) else None.

Definition first_some {A} (a b : option A) : option A :=
  match a with Some _ => a | None => b end.

(** A value that is neither a string, an object nor an array *)
Definition parse_scalar (s : string) : option (json * string) :=
  first_some (literal "null" JNull s)
 (first_some (literal "true" (JBool true) s)
 (first_some (literal "false" (JBool false) s)
 (first_some (parse_number s)
 (first_some (literal "NaN" JNonFinite s)
 (first_some (literal "Infinity" JNonFinite s)
             (literal "-Infinity" JNonFinite s)))))).

(** The scanner. Every call hands a smaller [fuel] to the calls it makes. *)
Fixpoint parse_value (fuel : nat) (s : string) : option (json * string) :=
  match fuel with
  | O => None
  | S f =>
      match s with
      | EmptyString => None
      | String c s' =>
          if Ascii.eqb c "034" then
            match parse_string s' with
            | Some (t, r) => Some (JString t, r)
            | None => None
            end
          else if Ascii.eqb c "{" then
            match expect "}" (skip_ws s') with
            | Some r => Some (JObject [], r)
            | None => parse_members f (skip_ws s') []
            end
          else if Ascii.eqb c "[" then
            match expect "]" (skip_ws s') with
            | Some r => Some (JArray [], r)
            | None => parse_elements f (skip_ws s') []
            end
          else parse_scalar s
      end
  end
with parse_elements (fuel : nat) (s : string) (acc : list json)
  : option (json * string) :=
  match fuel with
  | O => None
  | S f =>
      match parse_value f s with
      | Some (v, r) =>
          match expect "]" (skip_ws r) with
          | Some r' => Some (JArray (List.rev (v :: acc)), r')
          | None =>
              match expect "," (skip_ws r) with
              | Some r' => parse_elements f (skip_ws r') (v :: acc)
              | None => None
              end
          end
      | None => None
      end
  end
with parse_members (fuel : nat) (s : string) (acc : list (string * json))
  : option (json * string) :=
  match fuel with
  | O => None
  | S f =>
      match expect "034" s with
      | Some s' =>
          match parse_string s' with
          | Some (k, r) =>
              match expect ":" (skip_ws r) with
              | Some r1 =>
                  match parse_value f (skip_ws r1) with
                  | Some (v, r2) =>
                      match expect "}" (skip_ws r2) with
                      | Some r' =>
                          Some (JObject (List.rev ((k, v) :: acc)), r')
                      | None =>
                          match expect "," (skip_ws r2) with
                          | Some r' =>
                              parse_members f (skip_ws r') ((k, v) :: acc)
                          | None => None
                          end
                      end
                  | None => None
                  end
              | None => None
              end
          | None => None
          end
      | None => None
      end
  end.

(** [json.loads(s)]: one value between optional white space, and nothing
    after it. The fuel is enough for every text ([parse_value_fuel]). *)
Definition json_loads (s : string) : result json :=
  match parse_value (2 * String.length s + 2) (skip_ws s) with
  | Some (v, r) =>
      match skip_ws r with
      | EmptyString => Ret v
      | _ => Raise JSONDecodeError
      end
  | None => Raise JSONDecodeError
  end.

(** *** Operations of the scripts on decoded values *)

(** A float literal [m * 10^e] is read as 0.0 exactly when its magnitude
    is at most [2^-1075], half of the least positive float. *)
Definition float_is_zero (m e : Z) : bool :=
  if (0 <=? e)%Z then (m =? 0)%Z
  else (Z.abs m * 2 ^ 1075 <=? 10 ^ (- e))%Z.

(** Truth value of an object in a condition *)
Definition truthy (v : json) : bool :=
  match v with
  | JNull => false
  | JBool b => b
  | JInt z => negb (z =? 0)%Z
  | JFloat m e => negb (float_is_zero m e)
  | JNonFinite => true
  | JString s => negb (String.eqb s EmptyString)
  | JArray l => match l with [] => false | _ => true end
  | JObject d => match d with [] => false | _ => true end
  end.

(** [v.get(k, default)]: only a dict has the method. *)
Definition get (v : json) (k : string) (default : json) : result json :=
  match v with
  | JObject d =>
      match dict_get k d with
      | Some x => Ret x
      | None => Ret default
      end
  | _ => Raise AttributeError
  end.

Definition is_str (v : json) (s : string) : bool :=
  match v with
  | JString t => String.eqb t s
  | _ => false
  end.

(** [k in v] for a string [k]: a key of a dict, an element of a list, a
    substring of a string; any other container is no iterable. *)
Definition has (k : string) (v : json) : result bool :=
  match v with
  | JObject d => Ret (dict_mem k d)
  | JArray l => Ret (existsb (fun x => is_str x k) l)
  | JString s => Ret (contains k s)
  | _ => Raise TypeError
  end.

(** [v[k]] for a string [k] *)
Definition getitem (v : json) (k : string) : result json :=
  match v with
  | JObject d =>
      match dict_get k d with
      | Some x => Ret x
      | None => Raise KeyError
      end
  | _ => Raise TypeError
  end.

(** [v[0]] *)
Definition item0 (v : json) : result json :=
  match v with
  | JArray (x :: _) => Ret x
  | JArray [] => Raise IndexError
  | JString (String c _) => Ret (JString (String c EmptyString))
  | JString EmptyString => Raise IndexError
  | JObject _ => Raise KeyError
  | _ => Raise TypeError
  end.

(** [len(v)] *)
Definition len (v : json) : result nat :=
  match v with
  | JString s => Ret (String.length s)
  | JArray l => Ret (List.length l)
  | JObject d => Ret (dict_len d)
  | _ => Raise TypeError
  end.

Fixpoint chars (s : string) : list json :=
  match s with
  | EmptyString => []
  | String c s' => JString (String c EmptyString) :: chars s'
  end.

Fixpoint keys (d : list (string * json)) : list json :=
  match d with
  | [] => []
  | (k, _) :: d' => if dict_mem k d' then keys d' else JString k :: keys d'
  end.

(** The items a [for] loop over [v] visits *)
Definition iter (v : json) : result (list json) :=
  match v with
  | JArray l => Ret l
  | JString s => Ret (chars s)
  | JObject d => Ret (keys d)
  | _ => Raise TypeError
  end.

(** *** Regular expressions: a backtracking matcher with groups

    [run r s caps k] matches [r] at the head of [s] and hands what is left
    and the groups to the continuation [k]; alternatives are tried left to
    right and repetition is greedy, as in [re]. *)

Inductive regex : Type :=
| Eps
| Cls (p : ascii -> bool)
| Seq (r1 r2 : regex)
| Alt (r1 r2 : regex)
| Star (r : regex)
| Grp (i : nat) (r : regex).

Definition captures := list (nat * string).

Fixpoint group (i : nat) (caps : captures) : string :=
  match caps with
  | [] => EmptyString
  | (j, t) :: caps' => if (i =? j)%nat then t else group i caps'
  end.

Fixpoint run (r : regex) (s : string) (caps : captures)
    (k : string -> captures -> option captures) : option captures :=
  match r with
  | Eps => k s caps
  | Cls p =>
      match s with
      | String c s' => if p c then k s' caps else None
      | EmptyString => None
      end
  | Seq r1 r2 => run r1 s caps (fun s1 c1 => run r2 s1 c1 k)
  | Alt r1 r2 => first_some (run r1 s caps k) (run r2 s caps k)
  | Star r1 =>
      (fix loop (n : nat) (s : string) (caps : captures) : option captures :=
         match n with
         | O => k s caps
         | S n' =>
             first_some
               (run r1 s caps (fun s1 c1 =>
                  if (String.length s1 <? String.length s)%nat
                  then loop n' s1 c1 else None))
               (k s caps)
         end) (String.length s) s caps
  | Grp i r1 =>
      run r1 s caps (fun s1 c1 =>
        k s1 ((i, take (String.length s - String.length s1) s) :: c1))
  end.

(** [pattern.search(s)]: the match at the leftmost position that has one *)
Fixpoint search (r : regex) (s : string) : option captures :=
  match run r s [] (fun _ c => Some c) with
  | Some c => Some c
  | None =>
      match s with
      | EmptyString => None
      | String _ s' => search r s'
      end
  end.

(** Pattern syntax under [re.IGNORECASE] *)
Definition chr_i (c : ascii) : regex :=
  Cls (fun x => Ascii.eqb (lower_char x) (lower_char c)).

Fixpoint lit_i (s : string) : regex :=
  match s with
  | EmptyString => Eps
  | String c s' => Seq (chr_i c) (lit_i s')
  end.

Definition dot : regex := Cls (fun x => negb (Ascii.eqb x newline)).
Definition plus (r : regex) : regex := Seq r (Star r).
Definition opt (r : regex) : regex := Alt r Eps.
Definition ws : regex := Cls isspace.
Definition digit : regex := Cls isdigit.

(** *** [float]: binary64

    The operations are those of [Stdlib.Floats.SpecFloat], rounding to
    the nearest float, to the even one of two that are as near. A product
    or a sum beyond the floats is an infinity; a quotient of two [int]
    beyond them raises. *)






(** *** [datetime]: a naive local date and time

    [ordinal] counts days; [utcoffset] is the offset of the zone east of
    UTC, in seconds, at the time whose epoch is taken, so that [timestamp]
    needs no calendar. *)

Record datetime : Type := mk_datetime {
  ordinal : Z;
  hour : Z;
  minute : Z;
  second : Z;
  microsecond : Z
}.

Definition epoch_ordinal : Z := 719163.

(** [dt.replace(hour=h, minute=0, second=0, microsecond=0)] *)
Definition replace_hour (dt : datetime) (h : Z) : result datetime :=
  if ((0 <=? h) && (h <? 24))%Z
  then Ret (mk_datetime (ordinal dt) h 0 0 0)
  else Raise ValueError.

(** [a <= b] *)
Definition dt_le (a b : datetime) : bool :=
  let key (d : datetime) :=
    ((((ordinal d * 24 + hour d) * 60 + minute d) * 60 + second d) * 1000000
     + microsecond d)%Z in
  (key a <=? key b)%Z.

(** [dt + timedelta(days=n)] *)
Definition add_days (dt : datetime) (n : Z) : datetime :=
  mk_datetime (ordinal dt + n) (hour dt) (minute dt) (second dt)
    (microsecond dt).

(** [int(dt.timestamp())] for a [dt] on a whole second *)
Definition timestamp (utcoffset : Z) (dt : datetime) : Z :=
  ((ordinal dt - epoch_ordinal) * 86400 + hour dt * 3600 + minute dt * 60
   + second dt - utcoffset)%Z.

End Py.

Import Py.

(** *** More operations on decoded values *)

(** [pattern.search(v)]: [v] has to be a string. *)
Definition re_search (r : regex) (v : json) : result (option captures) :=
  match v with
  | JString s => Ret (search r s)
  | _ => Raise TypeError
  end.

(** [v.split(sep, 1)[1]] *)
Definition split_after (sep : ascii) (v : json) : result string :=
  match v with
  | JString s => after_first sep s
  | _ => Raise AttributeError
  end.

(** ** What the three scripts share, word for word *)

(** [last_json_line]: the file is read backwards from its end; line feeds
    are skipped while nothing has been collected, then characters are
    collected up to the next line feed. [log] is the content of the file
    (the empty string when the file does not exist). *)
Fixpoint scan_back (rev_log : string) (buf : string) : string :=
  match rev_log with
  | EmptyString => buf
  | String char rest =>
      if Ascii.eqb char newline then
        match buf with
        | EmptyString => scan_back rest buf
        | _ => buf
        end
      else scan_back rest (String char buf)
  end.

Definition last_json_line (log : string) : string :=
  scan_back (rev log) EmptyString.

(** What the supervisor does that the outside can see *)
Inductive event : Type :=
| Spawn (cmd : list string)
| Sleep (seconds : Z).

(** How an iteration ends: the loop goes on, it breaks on the sentinel, it
    breaks in single-iteration mode, or an exception leaves [main]. *)
Inductive outcome : Type :=
| Continue
| Completed
| SingleDone
| Crashed (e : exn).

(** [claude_cmd], the same in the three scripts but for [PROMPT], the
    instruction payload: static text, different in each script. *)
Definition claude_cmd (PROMPT : string) (continue_flag : bool) : list string :=
  ["/usr/local/bin/claude"]
  ++ (if continue_flag then ["--continue"] else [])
  ++ ["--dangerously-skip-permissions"; "--verbose"; "--output-format";
      "stream-json"; "-p"; PROMPT].

(** Before it sleeps until the reset, [main] calls
    [datetime.fromtimestamp(reset_epoch)] for its message and then
    [time.sleep(sleep_seconds)]. Each refuses a value out of its range with
    an exception ([ValueError], [OverflowError] or [OSError]); the ranges
    are those of the platform, and a [platform] tells what is raised for a
    pair of arguments, if anything. *)
Definition platform : Type := Z -> Z -> option exn.

Definition announce_and_sleep (range_error : platform)
    (reset_epoch sleep_seconds : Z) : result event :=
  match range_error reset_epoch sleep_seconds with
  | Some e => Raise e
  | None => Ret (Sleep sleep_seconds)
  end.

(** ** claude_loop.py *)

Module ClaudeLoop.

Definition RATE_LIMIT_MSG : regex :=
  Seq (lit_i "limit") (Seq (plus ws) (lit_i "reached")).

Definition RESET_TIME_PATTERN : regex :=
  Seq (lit_i "resets")
 (Seq (plus ws)
 (Seq (Grp 1 (Seq digit (opt digit)))
      (Grp 2 (Alt (lit_i "am") (lit_i "pm"))))).

(** The module imports [datetime] alone from [datetime]: the name
    [timedelta] is bound nowhere, and evaluating it raises. *)
Definition timedelta (days : Z) : result Z := Raise NameError.

Section Clock.

(** [datetime.now()], and the offset that the zone of the machine has at
    the time of the reset *)
Variable now : datetime.
Variable utcoffset : Z.

(** From the match of [RESET_TIME_PATTERN] to the epoch (lines 103-120,
    and again 136-153) *)
Definition reset_epoch_of_match (reset_match : captures) : result Z :=
  hour <- int_of_str (group 1 reset_match) ;;
  let am_pm := lower (group 2 reset_match) in
  let hour :=
    if String.eqb am_pm "pm" && negb (hour =? 12)%Z then (hour + 12)%Z
    else if String.eqb am_pm "am" && (hour =? 12)%Z then 0%Z
    else hour in
  reset_today <- replace_hour now hour ;;
  reset_today <-
    (if dt_le reset_today now
     then d <- timedelta 1 ;; Ret (add_days reset_today d)
     else Ret reset_today) ;;
  Ret (timestamp utcoffset reset_today).

(** The loop over the content items of an assistant message: the first
    text item with the phrase and a clock time decides. *)
Fixpoint scan_content (content : list json) : result (option Z) :=
  match content with
  | [] => Ret None
  | item :: rest =>
      ty <- get item "type" JNull ;;
      if is_str ty "text" then
        text <- get item "text" (JString "") ;;
        m <- re_search RATE_LIMIT_MSG text ;;
        match m with
        | Some _ =>
            reset_match <- re_search RESET_TIME_PATTERN text ;;
            match reset_match with
            | Some caps => e <- reset_epoch_of_match caps ;; Ret (Some e)
            | None => scan_content rest
            end
        | None => scan_content rest
        end
      else scan_content rest
  end.

Definition rate_limit_body (raw_json : string) : result (option Z) :=
  data <- json_loads (strip raw_json) ;;
  is_error <- get data "is_error" JNull ;;
  has_result <- (if truthy is_error then has "result" data else Ret false) ;;
  if has_result then
    result <- getitem data "result" ;;
    m <- re_search RATE_LIMIT_MSG result ;;
    match m with
    | Some _ =>
        reset_match <- re_search RESET_TIME_PATTERN result ;;
        match reset_match with
        | Some caps => e <- reset_epoch_of_match caps ;; Ret (Some e)
        | None =>
            pipe <- has "|" result ;;
            if pipe then
              timestamp_str <- split_after "|" result ;;
              e <- int_of_str (strip timestamp_str) ;;
              Ret (Some e)
            else Ret None
        end
    | None => Ret None
    end
  else
    ty <- get data "type" JNull ;;
    if is_str ty "assistant" then
      message <- get data "message" (JObject []) ;;
      content <- get message "content" (JArray []) ;;
      items <- iter content ;;
      scan_content items
    else Ret None.

(** [None] is the absence of a rate limit. The handler prints and falls
    through to [return None]. *)
Definition rate_limit_reset_epoch (raw_json : string) : result (option Z) :=
  if String.eqb raw_json EmptyString then Ret None
  else try_except (rate_limit_body raw_json)
         [JSONDecodeError; ValueError; IndexError] (fun _ => Ret None).

End Clock.

(** *** The classifier *)

(** What a summary shows; the marker and the layout of the printed line
    are fixed text around these values. *)
Inductive summary : Type :=
| AssistantText (text : json)
| ToolUse (tool_name : json)
| AssistantMessage
| SystemInfo (subtype : json) (tools_count : json).

(** Lines 202-208 and 244-250, for a [str] of more than 120 characters *)
Definition truncate_text (text : string) : string :=
  let truncated := take 120 text in
  match rfind " " truncated with
  | Some last_space =>
      if (100 <? last_space)%nat then take last_space truncated ++ "..."
      else truncated ++ "..."
  | None => truncated ++ "..."
  end.

(** The same lines for any value: [len] fails on what has no length, a
    long list has no [rfind], a long dict cannot be sliced. *)
Definition smart_truncate (text : json) : result json :=
  n <- len text ;;
  if (120 <? n)%nat then
    match text with
    | JString t => Ret (JString (truncate_text t))
    | JArray _ => Raise AttributeError
    | _ => Raise TypeError
    end
  else Ret text.

(** The [except] branch: parsing in Python; its own bare [except] turns
    every failure into [None]. *)
Definition summary_python_body (json_line : string)
  : result (option summary) :=
  data <- json_loads (strip json_line) ;;
  msg_type <- get data "type" (JString "unknown") ;;
  if is_str msg_type "assistant" then
    message <- get data "message" (JObject []) ;;
    content <- get message "content" (JArray []) ;;
    n <- (if truthy content then len content else Ret 0%nat) ;;
    if truthy content && (0 <? n)%nat then
      first_content <- item0 content ;;
      ty <- get first_content "type" JNull ;;
      if is_str ty "text" then
        text <- get first_content "text" (JString "") ;;
        text <- smart_truncate text ;;
        Ret (Some (AssistantText text))
      else if is_str ty "tool_use" then
        tool_name <- get first_content "name" (JString "unknown") ;;
        if (n =? 1)%nat then Ret (Some (ToolUse tool_name)) else Ret None
      else Ret None
    else Ret None
  else if is_str msg_type "user" then Ret None
  else if is_str msg_type "system" then
    subtype <- get data "subtype" (JString "unknown") ;;
    tools <- get data "tools" (JArray []) ;;
    tools_count <- len tools ;;
    Ret (Some (SystemInfo subtype (JInt (Z.of_nat tools_count))))
  else Ret None.

Definition summary_python (json_line : string) : option summary :=
  match summary_python_body json_line with
  | Ret s => s
  | Raise _ => None
  end.

Section Jq.

(** The [jq] program: from a filter and the text on its standard input to
    its return code and standard output; [Raise] when starting it or
    waiting for it fails. *)
Variable jq : string -> string -> result (Z * string).

Definition FIELDS_FILTER : string :=
  "{ type: .type, message_type: (.message.content[0].type // null), tool_name: (.message.content[0].name // null), text_preview: (.message.content[0].text // null), subtype: .subtype, tools_count: (.tools | length), has_both: (.message.content | length > 1) }".

(** The [try] block; [Ret None] is also what falls through to the final
    [return None]. *)
Definition summary_jq_body (json_line : string) : result (option summary) :=
  validated <- jq "." (strip json_line) ;;
  if negb (fst validated =? 0)%Z then Ret None
  else
    extracted <- jq FIELDS_FILTER (strip json_line) ;;
    if (fst extracted =? 0)%Z then
      fields <- json_loads (snd extracted) ;;
      msg_type <- get fields "type" JNull ;;
      if is_str msg_type "assistant" then
        message_type <- get fields "message_type" JNull ;;
        has_both <- get fields "has_both" (JBool false) ;;
        if is_str message_type "text" then
          text <- get fields "text_preview" (JString "") ;;
          text <- smart_truncate text ;;
          Ret (Some (AssistantText text))
        else if is_str message_type "tool_use" then
          tool_name <- get fields "tool_name" (JString "unknown") ;;
          if negb (truthy has_both) then Ret (Some (ToolUse tool_name))
          else Ret None
        else Ret (Some AssistantMessage)
      else if is_str msg_type "user" then Ret None
      else if is_str msg_type "system" then
        subtype <- get fields "subtype" (JString "unknown") ;;
        tools_count <- get fields "tools_count" (JInt 0) ;;
        Ret (Some (SystemInfo subtype
                     (if truthy tools_count then tools_count else JInt 0)))
      else Ret None
    else Ret None.

Definition extract_summary_with_jq (json_line : string) : option summary :=
  if String.eqb (strip json_line) EmptyString then None
  else
    match summary_jq_body json_line with
    | Ret s => s
    | Raise _ => summary_python json_line
    end.

End Jq.

(** *** The loop *)

Record supervisor : Type := mk_supervisor {
  continue_next : bool;
  log : string
}.

(** What one iteration takes from outside: the lines of the child, the
    local time when the detector runs and the epoch read before sleeping. *)
Record child_run : Type := mk_child_run {
  output : list string;
  now : datetime;
  current_epoch : Z
}.

(** The body of [while True] in [main]. The summaries printed while the
    child runs change nothing the loop reads. *)
Definition iteration (PROMPT : string) (utcoffset : Z)
    (range_error : platform) (run : child_run) (st : supervisor)
  : list event * outcome * supervisor :=
  let cmd := claude_cmd PROMPT (continue_next st) in
  let log' := log st ++ String.concat EmptyString (output run) in
  let last_line := last_json_line log' in
  match rate_limit_reset_epoch (now run) utcoffset last_line with
  | Raise e => ([Spawn cmd], Crashed e, mk_supervisor false log')
  | Ret (Some reset_epoch) =>
      let sleep_seconds := Z.max 0 (reset_epoch - current_epoch run) in
      match announce_and_sleep range_error reset_epoch sleep_seconds with
      | Raise e => ([Spawn cmd], Crashed e, mk_supervisor true log')
      | Ret slept =>
          ([Spawn cmd; slept; Sleep 60], Continue, mk_supervisor true log')
      end
  | Ret None => ([Spawn cmd; Sleep 60], Continue, mk_supervisor false log')
  end.

(** [main]: the state before the loop, [log0] being what the log file
    holds when the script starts. *)
Definition start (log0 : string) : supervisor := mk_supervisor false log0.

(** The states at the top of the successive iterations, for as long as
    the loop goes on and the child runs in [runs] last. *)
Fixpoint trajectory (PROMPT : string) (utcoffset : Z)
    (range_error : platform) (runs : list child_run) (st : supervisor)
  : list supervisor :=
  st ::
  match runs with
  | [] => []
  | run :: rest =>
      match iteration PROMPT utcoffset range_error run st with
      | (_, Continue, st') =>
          trajectory PROMPT utcoffset range_error rest st'
      | _ => []
      end
  end.

End ClaudeLoop.

(** ** fixer.py and maker.py

    The two scripts are one text but for the prompt, the log path, the
    messages and the completion test: [Tracked] is what they share. *)

Module Tracked.

Definition RATE_LIMIT_MSG : regex :=
  Seq (lit_i "Claude")
 (Seq (Star dot)
 (Seq (Alt (lit_i "usage") (Alt (lit_i "use") (lit_i "limit")))
 (Seq (Star dot) (lit_i "reach")))).

(** *** The usage accumulator *)

(** A total is an [int] until a float is added to it; the value of a float
    total is not followed. *)
Inductive number : Type :=
| Int (z : Z)
| Float.

Record StatsTracker : Type := mk_stats {
  total_input_tokens : number;
  total_output_tokens : number;
  total_cache_read_tokens : number;
  total_cache_write_tokens : number;
  iterations : Z
}.

(** [StatsTracker()]; the start time serves the elapsed-time figures,
    which are not modelled. *)
Definition init : StatsTracker := mk_stats (Int 0) (Int 0) (Int 0) (Int 0) 0.

Definition set_input (n : number) (s : StatsTracker) : StatsTracker :=
  mk_stats n (total_output_tokens s) (total_cache_read_tokens s)
    (total_cache_write_tokens s) (iterations s).
Definition set_output (n : number) (s : StatsTracker) : StatsTracker :=
  mk_stats (total_input_tokens s) n (total_cache_read_tokens s)
    (total_cache_write_tokens s) (iterations s).
Definition set_cache_read (n : number) (s : StatsTracker) : StatsTracker :=
  mk_stats (total_input_tokens s) (total_output_tokens s) n
    (total_cache_write_tokens s) (iterations s).
Definition set_cache_write (n : number) (s : StatsTracker) : StatsTracker :=
  mk_stats (total_input_tokens s) (total_output_tokens s)
    (total_cache_read_tokens s) n (iterations s).
Definition set_iterations (n : Z) (s : StatsTracker) : StatsTracker :=
  mk_stats (total_input_tokens s) (total_output_tokens s)
    (total_cache_read_tokens s) (total_cache_write_tokens s) n.

(** [total + v]: [True] and [False] count as 1 and 0; an [int] that no
    float can hold cannot be added to a float. *)
Definition fits_float (z : Z) : bool := (Z.abs z <? 2 ^ 1024 - 2 ^ 970)%Z.

Definition add (total : number) (v : json) : result number :=
  let add_int (z : Z) :=
    match total with
    | Int t => Ret (Int (t + z))
    | Float => if fits_float z then Ret Float else Raise OverflowError
    end in
  match v with
  | JInt z => add_int z
  | JBool b => add_int (Z.b2z b)
  | JFloat _ _ | JNonFinite =>
      match total with
      | Int t => if fits_float t then Ret Float else Raise OverflowError
      | Float => Ret Float
      end
  | _ => Raise TypeError
  end.

(** Methods of the tracker: a computation on [self] that may raise. *)
Definition M (A : Type) : Type := StatsTracker -> StatsTracker * result A.

Definition lift {A} (r : result A) : M A := fun self => (self, r).

Definition bindM {A B} (m : M A) (k : A -> M B) : M B :=
  fun self =>
    match m self with
    | (self', Ret a) => k a self'
    | (self', Raise e) => (self', Raise e)
    end.

Notation "x <~ m ;; k" := (bindM m (fun x => k))
  (at level 61, m at next level, right associativity).

(** [self.field += operand] *)
Definition iadd (field : StatsTracker -> number)
    (store : number -> StatsTracker -> StatsTracker)
    (operand : result json) : M unit :=
  fun self =>
    match (v <- operand ;; add (field self) v) with
    | Ret n => (store n self, Ret tt)
    | Raise e => (self, Raise e)
    end.

Definition parse_usage_body (raw_json : string) : M unit :=
  data <~ lift (json_loads (strip raw_json)) ;;
  usage <~ lift (get data "usage" (JObject [])) ;;
  _ <~ iadd total_input_tokens set_input
         (get usage "input_tokens" (JInt 0)) ;;
  _ <~ iadd total_output_tokens set_output
         (get usage "output_tokens" (JInt 0)) ;;
  _ <~ iadd total_cache_read_tokens set_cache_read
         (get usage "cache_read_input_tokens" (JInt 0)) ;;
  cache_creation <~ lift (get usage "cache_creation" (JObject [])) ;;
  _ <~ iadd total_cache_write_tokens set_cache_write
         (get cache_creation "ephemeral_5m_input_tokens" (JInt 0)) ;;
  iadd total_cache_write_tokens set_cache_write
    (get cache_creation "ephemeral_1h_input_tokens" (JInt 0)).

Definition parse_usage_from_json (raw_json : string) : M unit :=
  fun self =>
    if String.eqb raw_json EmptyString then (self, Ret tt)
    else
      let '(self', r) := parse_usage_body raw_json self in
      (self', try_except r [JSONDecodeError; ValueError; KeyError]
                (fun _ => Ret tt)).




(** *** The detector *)

Definition rate_limit_body (raw_json : string) : result (option Z) :=
  data <- json_loads (strip raw_json) ;;
  is_error <- get data "is_error" JNull ;;
  has_result <- (if truthy is_error then has "result" data else Ret false) ;;
  if has_result then
    result <- getitem data "result" ;;
    m <- re_search RATE_LIMIT_MSG result ;;
    pipe <- (match m with
             | Some _ => has "|" result
             | None => Ret false
             end) ;;
    if pipe then
      timestamp_str <- split_after "|" result ;;
      e <- int_of_str timestamp_str ;;
      Ret (Some e)
    else Ret None
  else Ret None.

Definition rate_limit_reset_epoch (raw_json : string) : result (option Z) :=
  if String.eqb raw_json EmptyString then Ret None
  else try_except (rate_limit_body raw_json)
         [JSONDecodeError; ValueError; IndexError] (fun _ => Ret None).

(** [v.strip()] *)
Definition str_strip (v : json) : result string :=
  match v with
  | JString s => Ret (strip s)
  | _ => Raise AttributeError
  end.

(** [is_done] and [is_actually_working] but for the last test *)
Definition completion (test : string -> bool) (raw_json : string)
  : result bool :=
  if String.eqb raw_json EmptyString then Ret false
  else
    try_except
      (data <- json_loads (strip raw_json) ;;
       has_result <- has "result" data ;;
       if has_result then
         result <- getitem data "result" ;;
         stripped <- str_strip result ;;
         Ret (test (upper stripped))
       else Ret false)
      [JSONDecodeError; ValueError; KeyError] (fun _ => Ret false).

(** *** The loop *)

Record supervisor : Type := mk_supervisor {
  continue_next : bool;
  stats : StatsTracker;
  log : string
}.

(** What one iteration takes from outside: the lines of the child and the
    epoch read before sleeping. *)
Record child_run : Type := mk_child_run {
  output : list string;
  current_epoch : Z
}.

(** [for line in current_iteration_lines: stats.parse_usage_from_json(line)] *)
Fixpoint feed (lines : list string) : M unit :=
  match lines with
  | [] => lift (Ret tt)
  | line :: rest => _ <~ parse_usage_from_json line ;; feed rest
  end.

Section Loop.

Variable is_complete : string -> result bool.
Variable PROMPT : string.
Variable single_iteration : bool.
Variable range_error : platform.

(** The body of [while True] in [main] *)
Definition iteration (run : child_run) (st : supervisor)
  : list event * outcome * supervisor :=
  let stats0 := set_iterations (iterations (stats st) + 1) (stats st) in
  let cmd := claude_cmd PROMPT (continue_next st) in
  let log' := log st ++ String.concat EmptyString (output run) in
  match feed (map strip (output run)) stats0 with
  | (stats1, Raise e) =>
      ([Spawn cmd], Crashed e, mk_supervisor (continue_next st) stats1 log')
  | (stats1, Ret _) =>
      let last_line := last_json_line log' in
      match is_complete last_line with
      | Raise e => ([Spawn cmd], Crashed e, mk_supervisor false stats1 log')
      | Ret true => ([Spawn cmd], Completed, mk_supervisor false stats1 log')
      | Ret false =>
          match rate_limit_reset_epoch last_line with
          | Raise e =>
              ([Spawn cmd], Crashed e, mk_supervisor false stats1 log')
          | Ret (Some reset_epoch) =>
              let sleep_seconds :=
                Z.max 0 (reset_epoch - current_epoch run) in
              match announce_and_sleep range_error reset_epoch
                      sleep_seconds with
              | Raise e =>
                  ([Spawn cmd], Crashed e, mk_supervisor true stats1 log')
              | Ret slept =>
                  if single_iteration then
                    ([Spawn cmd; slept], SingleDone,
                     mk_supervisor true stats1 log')
                  else
                    ([Spawn cmd; slept; Sleep 60], Continue,
                     mk_supervisor true stats1 log')
              end
          | Ret None =>
              if single_iteration then
                ([Spawn cmd], SingleDone, mk_supervisor false stats1 log')
              else
                ([Spawn cmd; Sleep 60], Continue,
                 mk_supervisor false stats1 log')
          end
      end
  end.

(** [main]: the state before the loop, [log0] being what the log file
    holds when the script starts. *)
Definition start (log0 : string) : supervisor :=
  mk_supervisor false init log0.

(** The states at the top of the successive iterations, for as long as
    the loop goes on and the child runs in [runs] last. *)
Fixpoint trajectory (runs : list child_run) (st : supervisor)
  : list supervisor :=
  st ::
  match runs with
  | [] => []
  | run :: rest =>
      match iteration run st with
      | (_, Continue, st') => trajectory rest st'
      | _ => []
      end
  end.

End Loop.

End Tracked.

Module Fixer.

Definition is_actually_working : string -> result bool :=
  Tracked.completion (contains "ACTUALLY_WORKING").

Definition iteration := Tracked.iteration is_actually_working.
Definition trajectory := Tracked.trajectory is_actually_working.

End Fixer.

Module Maker.

Definition is_done : string -> result bool :=
  Tracked.completion (startswith "DONE").

Definition iteration := Tracked.iteration is_done.
Definition trajectory := Tracked.trajectory is_done.

End Maker.

(** ** Log lines in the examples: [dq] puts a double quote for each
    apostrophe, so that a line reads as it is in the log. *)
Fixpoint dq (s : string) : string :=
  match s with
  | EmptyString => EmptyString
  | String c s' => String (if Ascii.eqb c "'" then "034"%char else c) (dq s')
  end.

(** * Definitions for the statements

    The predicates and measures the properties are stated with, the
    records of the scenarios of the specification, and the inputs of the
    examples. *)

(** ** Predicates and measures *)

(** A text of white space only *)
Fixpoint all_space (s : string) : bool :=
  match s with
  | EmptyString => true
  | String c s' => isspace c && all_space s'
  end.

(** A time of day as [datetime] has it *)
Definition valid_time (dt : datetime) : bool :=
  ((0 <=? hour dt) && (hour dt <? 24)
   && (0 <=? minute dt) && (minute dt <? 60)
   && (0 <=? second dt) && (second dt <? 60)
   && (0 <=? microsecond dt) && (microsecond dt <? 1000000))%Z.

(** The bounds of a valid time, as hypotheses for [lia] *)
Ltac split_valid H :=
  unfold valid_time in H;
  repeat (apply andb_true_iff in H; let H' := fresh H in destruct H as [H H']);
  repeat match goal with
         | X : (_ <=? _)%Z = true |- _ => apply Z.leb_le in X
         | X : (_ <? _)%Z = true |- _ => apply Z.ltb_lt in X
         end.

(** The same letter in either case: the same character, or an upper-case
    ASCII letter and its lower-case form, 32 code points further *)
Definition same_letter (a b : ascii) : bool :=
  Ascii.eqb a b
  || (between 65 90 a && (code b =? code a + 32)%nat)
  || (between 65 90 b && (code a =? code b + 32)%nat).

(** [s] starts with [p], and [p] occurs in [s], the case of the letters
    being ignored *)
Fixpoint startswith_nocase (p s : string) : bool :=
  match p, s with
  | EmptyString, _ => true
  | String a p', String b s' => same_letter a b && startswith_nocase p' s'
  | String _ _, EmptyString => false
  end.

Fixpoint contains_nocase (p s : string) : bool :=
  startswith_nocase p s ||
  match s with
  | EmptyString => false
  | String _ s' => contains_nocase p s'
  end.

(** A text without lower-case ASCII letter *)
Fixpoint no_lower (p : string) : bool :=
  match p with
  | EmptyString => true
  | String c p' => negb (between 97 122 c) && no_lower p'
  end.

(** The 256 characters *)
Definition all_ascii : list ascii := map ascii_of_nat (seq 0 256).

(** The 24-hour form of an hour with its am or pm *)
Definition hour24 (hour : Z) (am_pm : string) : Z :=
  if String.eqb am_pm "pm" && negb (hour =? 12)%Z then (hour + 12)%Z
  else if String.eqb am_pm "am" && (hour =? 12)%Z then 0%Z
  else hour.

(** The counts of a record, in the words of the specification: the four
    token fields of the usage object, an absent field counting as 0, the
    cache-write count being the sum of the two fields of [cache_creation].
    No counts are given to a line that does not decode to such a record. *)
Record counts : Type := mk_counts {
  input_tokens : Z;
  output_tokens : Z;
  cache_read_tokens : Z;
  cache_write_tokens : Z
}.

Definition count (k : string) (d : list (string * json)) : option Z :=
  match dict_get k d with
  | None => Some 0%Z
  | Some (JInt z) => Some z
  | Some _ => None
  end.



(** The sum of one count over the records *)
Definition total (f : counts -> Z) (cs : list counts) : Z :=
  fold_right (fun c acc => (f c + acc)%Z) 0%Z cs.




(** The order of two [int] totals; nothing is said of a float total. *)
Definition number_le (a b : Tracked.number) : Prop :=
  match a, b with
  | Tracked.Int x, Tracked.Int y => (x <= y)%Z
  | _, _ => False
  end.

(** A line that has the two characters of a [\u] escape. An escape of a
    code point from 256 up denotes a character that the strings of the
    model do not have, and the decoder of the model refuses a line with
    one where [json.loads] decodes it: what is stated of a line that the
    model does not decode is stated of a line without [\u]. *)
Definition has_u_escape (s : string) : bool := contains "\u" s.

(** No token count of the line is a negative integer or a float: the
    counts are the values the call would add, those under the usage of
    the record and under its [cache_creation]. *)
Definition nonneg_value (v : json) : bool :=
  match v with
  | JInt z => (0 <=? z)%Z
  | JFloat _ _ | JNonFinite => false
  | _ => true
  end.

Definition nonneg_in (container : json) (k : string) : bool :=
  match container with
  | JObject d =>
      match dict_get k d with
      | Some v => nonneg_value v
      | None => true
      end
  | _ => true
  end.

Definition usage_nonneg (usage : json) : bool :=
  nonneg_in usage "input_tokens"
  && nonneg_in usage "output_tokens"
  && nonneg_in usage "cache_read_input_tokens"
  && match usage with
     | JObject u =>
         match dict_get "cache_creation" u with
         | Some cache_creation =>
             nonneg_in cache_creation "ephemeral_5m_input_tokens"
             && nonneg_in cache_creation "ephemeral_1h_input_tokens"
         | None => true
         end
     | _ => true
     end.

(** The lines of the amended claim: a line that decodes, with no negative
    or float count in it, or a line without [\u] that does not decode *)
Definition counts_nonneg (raw : string) : bool :=
  match json_loads (strip raw) with
  | Ret (JObject d) =>
      match dict_get "usage" d with
      | Some usage => usage_nonneg usage
      | None => true
      end
  | Ret _ => true
  | Raise _ => negb (has_u_escape raw)
  end.

(** Each total of [b] is an [int] no less than the [int] it is in [a]. *)
Definition grows (a b : Tracked.StatsTracker) : Prop :=
  number_le (Tracked.total_input_tokens a) (Tracked.total_input_tokens b)
  /\ number_le (Tracked.total_output_tokens a) (Tracked.total_output_tokens b)
  /\ number_le (Tracked.total_cache_read_tokens a)
       (Tracked.total_cache_read_tokens b)
  /\ number_le (Tracked.total_cache_write_tokens a)
       (Tracked.total_cache_write_tokens b).

(** The text of the first content item of an assistant record, when it is
    a text item *)
Definition first_text (data : json) : option string :=
  match data with
  | JObject d =>
      match dict_get "type" d, dict_get "message" d with
      | Some (JString ty), Some (JObject m) =>
          if String.eqb ty "assistant" then
            match dict_get "content" m with
            | Some (JArray (JObject item :: _)) =>
                match dict_get "type" item, dict_get "text" item with
                | Some (JString item_type), Some (JString text) =>
                    if String.eqb item_type "text" then Some text else None
                | _, _ => None
                end
            | _ => None
            end
          else None
      | _, _ => None
      end
  | _ => None
  end.

(** [jq] answers both calls with return code 0, and the fields it prints
    are those of an assistant record with [text] in its first item. *)
Definition jq_reports (jq : string -> string -> result (Z * string))
    (json_line text : string) : Prop :=
  exists out1 out2 fields,
    jq "." (strip json_line) = Ret (0%Z, out1)
    /\ jq ClaudeLoop.FIELDS_FILTER (strip json_line) = Ret (0%Z, out2)
    /\ json_loads out2 = Ret (JObject fields)
    /\ dict_get "type" fields = Some (JString "assistant")
    /\ dict_get "message_type" fields = Some (JString "text")
    /\ dict_get "text_preview" fields = Some (JString text).

(** A text without a line feed, and a text of line feeds only *)
Fixpoint no_newline (s : string) : bool :=
  match s with
  | EmptyString => true
  | String c s' => negb (Ascii.eqb c newline) && no_newline s'
  end.

Fixpoint all_newlines (s : string) : bool :=
  match s with
  | EmptyString => true
  | String c s' => Ascii.eqb c newline && all_newlines s'
  end.

(** A value within the limits that the interpreter puts on [json.loads]
    by default: nested less than [n] deep, and with no integer of more
    than 4300 digits *)
Fixpoint shallow (n : nat) (v : json) : bool :=
  match n with
  | O => false
  | S n' =>
      match v with
      | JArray l => forallb (shallow n') l
      | JObject d => forallb (fun member => shallow n' (snd member)) d
      | JInt z => (Z.abs z <? 10 ^ 4300)%Z
      | _ => true
      end
  end.

Definition within_limits (v : json) : bool := shallow 100 v.

(** The shape of a decoded value *)
Definition is_object (v : json) : bool :=
  match v with JObject _ => true | _ => false end.

Definition is_string (v : json) : bool :=
  match v with JString _ => true | _ => false end.

(** A method of the tracker that neither reads the iteration counter nor
    changes it *)
Definition blind {A} (m : Tracked.M A) : Prop :=
  forall k self,
    m (Tracked.set_iterations k self)
    = (Tracked.set_iterations k (fst (m self)), snd (m self)).

(** An event that is no sleep for a negative time *)
Definition nonneg_sleep (ev : event) : bool :=
  match ev with
  | Sleep seconds => (0 <=? seconds)%Z
  | Spawn _ => true
  end.

(** The lines the children of the first [n] runs wrote, in their order *)
Definition written {R} (output : R -> list string) (n : nat)
    (runs : list R) : list string :=
  flat_map output (firstn n runs).

(** A content item the detector of claude_loop.py passes over: an object
    that is no text item, or a text item whose text has not both the
    phrase and a clock time *)
Definition inert (item : json) : bool :=
  match item with
  | JObject d =>
      match dict_get "type" d with
      | Some (JString ty) =>
          if String.eqb ty "text" then
            match dict_get "text" d with
            | Some (JString text) =>
                match search ClaudeLoop.RATE_LIMIT_MSG text,
                      search ClaudeLoop.RESET_TIME_PATTERN text with
                | Some _, Some _ => false
                | _, _ => true
                end
            | Some _ => false
            | None => true
            end
          else true
      | _ => true
      end
  | _ => false
  end.

(** An error record with a result: the records for which the detector of
    claude_loop.py does not look at the message *)
Definition error_with_result (d : list (string * json)) : bool :=
  match dict_get "is_error" d with
  | Some is_error => truthy is_error && dict_mem "result" d
  | None => false
  end.

(** ** The scenarios of the specification *)

(** Scenario A: the error record with the epoch after the pipe *)
Definition scenario_A : string :=
  dq "{'is_error':true,'result':'Claude limit reached|1700000000'}".

(** Scenario B: the assistant record with a clock time *)
Definition scenario_B : string :=
  dq "{'type':'assistant','message':{'content':[{'type':'text','text':'Usage limit reached, resets 3am'}]}}".

(** Scenario C: the record of a completed task *)
Definition scenario_C : string := dq "{'result':'DONE: all tasks complete'}".

(** ** Inputs of the examples *)

(** Scenario C in lower case between white space, the last of it a line
    feed written as an escape; and a result with the sentinel of fixer.py
    in mixed case, after other words *)
Definition padded_done : string :=
  dq "{'result':'  done: all tasks complete \n'}".

Definition mixed_case_working : string :=
  dq "{'type':'result','result':'\tnow Actually_Working, checked twice  '}".



(** [c * n] *)
Fixpoint replicate (n : nat) (c : ascii) : string :=
  match n with
  | O => EmptyString
  | S n' => String c (replicate n' c)
  end.

(** The log line of an assistant record with the one text item [t], and
    what it decodes to *)
Definition text_line (t : string) : string :=
  dq "{'type':'assistant','message':{'content':[{'type':'text','text':'"
  ++ t ++ dq "'}]}}".

Definition text_record (t : string) : json :=
  JObject
    [("type", JString "assistant");
     ("message",
      JObject
        [("content",
          JArray [JObject [("type", JString "text"); ("text", JString t)]])])].

(** 131 characters with the only space at offset 100, and with the only
    space at offset 110 *)
Definition boundary_text : string :=
  replicate 100 "a" ++ " " ++ replicate 30 "b".

Definition worded_text : string :=
  replicate 110 "a" ++ " " ++ replicate 20 "b".

(** A platform whose ranges hold every value of the examples *)
Definition wide_platform : platform := fun _ _ => None.

(** The end of a line of the child *)
Definition line_feed : string := String newline EmptyString.

(** A child that ends on the rate-limit record of scenario A, the epoch
    being 1699999000 when the supervisor reads the clock *)
Definition limited_run : Tracked.child_run :=
  Tracked.mk_child_run
    [dq "{'type':'system','subtype':'init'}" ++ line_feed;
     scenario_A ++ line_feed]
    1699999000.


(** A child that prints nothing the detectors react to *)
Definition quiet_run : Tracked.child_run :=
  Tracked.mk_child_run [dq "{'type':'system','subtype':'init'}" ++ line_feed]
    1700000100.






(** A child that prints two empty lines *)
Definition silent_run : Tracked.child_run :=
  Tracked.mk_child_run [line_feed; line_feed] 1699999000.

(** Children under claude_loop.py, the detector running at 10:30 *)
Definition half_past_ten : datetime := mk_datetime 739000 10 30 0 0.

Definition noisy_loop_run : ClaudeLoop.child_run :=
  ClaudeLoop.mk_child_run ["Error: connection reset" ++ line_feed]
    half_past_ten 1700000100.

Definition limited_loop_run : ClaudeLoop.child_run :=
  ClaudeLoop.mk_child_run [scenario_A ++ line_feed] half_past_ten 1699999000.

Definition silent_loop_run : ClaudeLoop.child_run :=
  ClaudeLoop.mk_child_run [line_feed; line_feed] half_past_ten 1699999000.

(** An error record with a clock time that is no hour of the day, and an
    epoch after a pipe *)
Definition late_clock : string :=
  dq "{'is_error':true,'result':'Claude limit reached, resets 13pm|1700000000'}".

(** A usage record whose second count is a string *)
Definition half_good_usage : string :=
  dq "{'usage':{'input_tokens':7,'output_tokens':'many'}}".

(** A [jq] that does not answer in time *)
Definition failing_jq : string -> string -> result (Z * string) :=
  fun _ _ => Raise TimeoutExpired.

(** An assistant record with a text after a tool call *)
Definition tool_and_text_line : string :=
  dq "{'type':'assistant','message':{'content':[{'type':'tool_use','name':'Bash'},{'type':'text','text':'ok'}]}}".

(** An assistant record with a tool call and then a text with a clock
    time *)
Definition clock_after_tool : string :=
  dq "{'type':'assistant','message':{'content':[{'type':'tool_use','name':'Bash'},{'type':'text','text':'Usage limit reached, resets 3pm'}]}}".


(** A child under claude_loop.py whose last line is a JSON string *)
Definition stray_loop_run : ClaudeLoop.child_run :=
  ClaudeLoop.mk_child_run [dq "'done'" ++ line_feed] half_past_ten 1700000100.

(** A record whose result is null, and an error record whose result is
    a number *)
Definition null_result : string := dq "{'result':null}".

Definition numeric_error : string := dq "{'is_error':true,'result':5}".

(** * Properties *)

(** ** Strings *)

Lemma rstrip_head (c : ascii) (s : string) :
  isspace c = false -> exists r, rstrip (String c s) = String c r.
Proof.
  intros Hc. simpl. destruct (rstrip s) as [|a r].
  - rewrite Hc. now exists EmptyString.
  - now exists (String a r).
Qed.

Lemma int_space_isspace (c : ascii) :
  int_space c = true -> isspace c = true.
Proof.
  destruct c as [[] [] [] [] [] [] [] []]; simpl; intros H;
    (reflexivity || discriminate H).
Qed.

Lemma isdigit_not_space (c : ascii) : isdigit c = true -> isspace c = false.
Proof.
  destruct c as [[] [] [] [] [] [] [] []]; simpl; intros H;
    (reflexivity || discriminate H).
Qed.

Lemma all_int_space_rstrip (s : string) :
  all_int_space s = true -> rstrip s = EmptyString.
Proof.
  induction s as [|c s IH]; simpl; [reflexivity|].
  intros H. apply andb_true_iff in H as [Hc Hs].
  now rewrite (IH Hs), (int_space_isspace c Hc).
Qed.

(** The white space after the digits may go. *)
Lemma digits_val_rstrip (ds : string) :
  forall acc prev_digit n,
    digits_val acc prev_digit ds = Some n ->
    digits_val acc prev_digit (rstrip ds) = Some n.
Proof.
  induction ds as [|c ds IH]; intros acc pd n; [auto|].
  cbn [digits_val]. destruct (isdigit c) eqn:Ed.
  - intros H. specialize (IH _ _ _ H). cbn [rstrip].
    destruct (rstrip ds) as [|a r].
    + rewrite (isdigit_not_space c Ed). cbn [digits_val]. now rewrite Ed.
    + cbn [digits_val]. now rewrite Ed.
  - destruct (Ascii.eqb c "_") eqn:Eu.
    + destruct pd; [|discriminate]. intros H. specialize (IH _ _ _ H).
      cbn [rstrip]. destruct (rstrip ds) as [|a r]; [discriminate IH|].
      cbn [digits_val]. now rewrite Ed, Eu.
    + destruct pd; [|discriminate]. cbn [andb].
      destruct (all_int_space (String c ds)) eqn:Ea; [|discriminate].
      intros H. now rewrite (all_int_space_rstrip _ Ea).
Qed.

Lemma signed_rstrip (sign : Z) (ds : string) (n : Z) :
  signed sign ds = Ret n ->
  signed sign (rstrip ds) = Ret n /\ rstrip ds <> EmptyString.
Proof.
  unfold signed. destruct ds as [|c ds]; [discriminate|].
  cbn [starts_with_digit]. destruct (isdigit c) eqn:Ed; [|discriminate].
  destruct (digits_val 0 false (String c ds)) as [m|] eqn:Hm; [|discriminate].
  intros H. rewrite (digits_val_rstrip _ _ _ _ Hm).
  destruct (rstrip_head c ds (isdigit_not_space c Ed)) as (r & ->).
  cbn [starts_with_digit]. rewrite Ed. split; [exact H | discriminate].
Qed.

Lemma skip_int_space_lstrip (s : string) (c : ascii) (r : string) :
  skip_int_space s = String c r -> isspace c = false ->
  lstrip s = String c r.
Proof.
  induction s as [|a s IH]; [discriminate|]. simpl.
  destruct (int_space a) eqn:Ea.
  - intros H Hc. rewrite (int_space_isspace a Ea). auto.
  - intros [= -> ->] Hc. now rewrite Hc.
Qed.

Lemma skip_int_space_head (c : ascii) (r : string) :
  isspace c = false -> skip_int_space (String c r) = String c r.
Proof.
  intros Hc. simpl. destruct (int_space c) eqn:E; [|reflexivity].
  rewrite (int_space_isspace c E) in Hc. discriminate.
Qed.

(** What [int] reads, it reads as well once the string is stripped. *)
Lemma int_of_str_strip (s : string) (n : Z) :
  int_of_str s = Ret n -> int_of_str (strip s) = Ret n.
Proof.
  unfold int_of_str, strip.
  destruct (skip_int_space s) as [|c r] eqn:Hb; [discriminate|].
  cbn [int_body].
  assert (Hcases :
    forall (Hc : isspace c = false),
      int_body (String c r) = Ret n ->
      int_body (skip_int_space (rstrip (lstrip s))) = Ret n).
  { intros Hc H. rewrite (skip_int_space_lstrip s c r Hb Hc).
    destruct (rstrip_head c r Hc) as (r' & Hr'). rewrite Hr'.
    rewrite (skip_int_space_head c r' Hc). rewrite <- Hr'. clear Hr' r'.
    revert H. cbn [int_body rstrip].
    destruct (Ascii.eqb c "-") eqn:Em; [|destruct (Ascii.eqb c "+") eqn:Ep].
    - intros H. destruct (signed_rstrip _ _ _ H) as [H1 H2].
      destruct (rstrip r) as [|a t]; [now elim H2|].
      cbn [int_body]. now rewrite Em.
    - intros H. destruct (signed_rstrip _ _ _ H) as [H1 H2].
      destruct (rstrip r) as [|a t]; [now elim H2|].
      cbn [int_body]. now rewrite Em, Ep.
    - intros H. destruct (signed_rstrip _ _ _ H) as [H1 H2].
      cbn [rstrip] in H1, H2.
      destruct (rstrip r) as [|a t].
      + rewrite Hc in *. cbn [int_body]. now rewrite Em, Ep.
      + cbn [int_body]. now rewrite Em, Ep. }
  intros H. apply Hcases; [|exact H].
  revert H. cbn [int_body].
  destruct (Ascii.eqb c "-") eqn:Em;
    [apply Ascii.eqb_eq in Em; now subst c|].
  destruct (Ascii.eqb c "+") eqn:Ep;
    [apply Ascii.eqb_eq in Ep; now subst c|].
  unfold signed. cbn [starts_with_digit].
  destruct (isdigit c) eqn:Ed; [|discriminate].
  intros _. now apply isdigit_not_space.
Qed.

Lemma after_first_contains (c : ascii) (s t : string) :
  after_first c s = Ret t -> contains (String c EmptyString) s = true.
Proof.
  induction s as [|a s IH]; simpl; [discriminate|].
  destruct (Ascii.eqb a c) eqn:E.
  - intros _. apply Ascii.eqb_eq in E. subst a.
    rewrite Ascii.eqb_refl. reflexivity.
  - intros H. rewrite (IH H). apply orb_true_r.
Qed.

Lemma isspace_upper (c : ascii) : isspace (upper_char c) = isspace c.
Proof.
  destruct c as [[] [] [] [] [] [] [] []]; reflexivity.
Qed.

Lemma upper_lstrip (s : string) : upper (lstrip s) = lstrip (upper s).
Proof.
  induction s as [|c s IH]; simpl; [reflexivity|].
  rewrite isspace_upper. destruct (isspace c); [exact IH|reflexivity].
Qed.

Lemma upper_rstrip (s : string) : upper (rstrip s) = rstrip (upper s).
Proof.
  induction s as [|c s IH]; simpl; [reflexivity|].
  rewrite <- IH, isspace_upper.
  destruct (rstrip s); simpl; [destruct (isspace c)|]; reflexivity.
Qed.

Lemma upper_strip (s : string) : upper (strip s) = strip (upper s).
Proof. unfold strip. now rewrite upper_rstrip, upper_lstrip. Qed.

Lemma lstrip_pad (p s : string) :
  all_space p = true -> lstrip (p ++ s) = lstrip s.
Proof.
  induction p as [|c p IH]; simpl; [reflexivity|].
  intros H. apply andb_true_iff in H as [Hc Hp]. rewrite Hc. auto.
Qed.

Lemma rstrip_all_space (p : string) :
  all_space p = true -> rstrip p = EmptyString.
Proof.
  induction p as [|c p IH]; simpl; [reflexivity|].
  intros H. apply andb_true_iff in H as [Hc Hp]. now rewrite IH, Hc.
Qed.

Lemma rstrip_pad (s p : string) :
  all_space p = true -> rstrip (s ++ p) = rstrip s.
Proof.
  intros Hp. induction s as [|c s IH]; simpl.
  - now apply rstrip_all_space.
  - now rewrite IH.
Qed.

Lemma lstrip_app_nonspace (s p : string) :
  lstrip s <> EmptyString -> lstrip (s ++ p) = lstrip s ++ p.
Proof.
  induction s as [|c s IH]; simpl; [congruence|].
  destruct (isspace c); auto.
Qed.

Lemma lstrip_all_space (p : string) :
  all_space p = true -> lstrip p = EmptyString.
Proof.
  induction p as [|c p IH]; simpl; [reflexivity|].
  intros H. apply andb_true_iff in H as [Hc Hp]. rewrite Hc. auto.
Qed.

Lemma lstrip_empty_all_space (s : string) :
  lstrip s = EmptyString -> all_space s = true.
Proof.
  induction s as [|a s IH]; simpl; [reflexivity|].
  destruct (isspace a); [auto|discriminate].
Qed.

Lemma strip_pad (p1 s p2 : string) :
  all_space p1 = true -> all_space p2 = true ->
  strip (p1 ++ s ++ p2) = strip s.
Proof.
  intros H1 H2. unfold strip. rewrite lstrip_pad by assumption.
  destruct (lstrip s) as [|c r] eqn:E.
  - rewrite lstrip_pad by now apply lstrip_empty_all_space.
    now rewrite lstrip_all_space.
  - rewrite lstrip_app_nonspace by (rewrite E; discriminate).
    rewrite E. now apply rstrip_pad.
Qed.

(** ** Decoding *)

Lemma loads_nonempty (raw : string) (v : json) :
  json_loads (strip raw) = Ret v -> String.eqb raw EmptyString = false.
Proof.
  destruct raw; [discriminate|reflexivity].
Qed.

(** ** The fuel of the scanner is enough *)

Lemma skip_ws_length (s : string) :
  (String.length (skip_ws s) <= String.length s)%nat.
Proof.
  induction s as [|c s IH]; simpl; [lia|].
  destruct (is_json_ws c); simpl; lia.
Qed.

Lemma expect_length (c : ascii) (s r : string) :
  expect c s = Some r -> String.length s = S (String.length r).
Proof.
  destruct s as [|a s]; simpl; [discriminate|].
  destruct (Ascii.eqb a c); [now intros [= ->] | discriminate].
Qed.

(** A string literal ends on its closing quote: something is consumed. *)
Lemma parse_string_length (n : nat) :
  forall s t r,
    (String.length s <= n)%nat ->
    parse_string s = Some (t, r) ->
    (String.length r < String.length s)%nat.
Proof.
  induction n as [|n IH]; intros s t r Hn; destruct s as [|c s'];
    try discriminate; simpl in Hn; [lia|].
  cbn [parse_string].
  destruct (Ascii.eqb c "034"); [intros [= _ ->]; simpl; lia|].
  destruct (Ascii.eqb c "\").
  - destruct s' as [|e s'']; [discriminate|]. simpl in Hn.
    destruct (Ascii.eqb e "u").
    + destruct s'' as [|h1 [|h2 [|h3 [|h4 s3]]]]; try discriminate.
      destruct (hex4 h1 h2 h3 h4) as [k|]; [|discriminate].
      destruct (k <? 256)%nat; [|discriminate].
      destruct (parse_string s3) as [[t0 r0]|] eqn:E; [|discriminate].
      intros [= _ <-]. simpl in Hn |- *.
      assert (String.length r0 < String.length s3)%nat
        by (apply (IH s3 t0 r0); [lia | exact E]).
      lia.
    + destruct (simple_escape e); [|discriminate].
      destruct (parse_string s'') as [[t0 r0]|] eqn:E; [|discriminate].
      intros [= _ <-]. simpl.
      assert (String.length r0 < String.length s'')%nat
        by (apply (IH s'' t0 r0); [lia | exact E]).
      lia.
  - destruct (code c <? 32)%nat; [discriminate|].
    destruct (parse_string s') as [[t0 r0]|] eqn:E; [|discriminate].
    intros [= _ <-]. simpl.
    assert (String.length r0 < String.length s')%nat
      by (apply (IH s' t0 r0); [lia | exact E]).
    lia.
Qed.

Lemma span_digits_length (s : string) :
  forall acc n v n' r,
    span_digits acc n s = (v, n', r) ->
    (String.length r <= String.length s)%nat.
Proof.
  induction s as [|c s IH]; intros acc n v n' r; simpl.
  - intros [= _ _ <-]. simpl. lia.
  - destruct (isdigit c).
    + intros H. specialize (IH _ _ _ _ _ H). lia.
    + intros [= _ _ <-]. simpl. lia.
Qed.

Lemma int_part_length (s : string) (v : Z) (r : string) :
  int_part s = Some (v, r) -> (String.length r < String.length s)%nat.
Proof.
  destruct s as [|c s']; [discriminate|]. unfold int_part.
  destruct (Ascii.eqb c "0"); [intros [= _ <-]; simpl; lia|].
  destruct (isdigit c) eqn:Ed; [|discriminate].
  cbn [span_digits]. rewrite Ed.
  destruct (span_digits _ 1 s') as [[v0 n0] r0] eqn:E.
  intros [= _ <-]. pose proof (span_digits_length _ _ _ _ _ _ E). simpl. lia.
Qed.

Lemma frac_part_length (iv : Z) (s : string) (m : Z) (n : nat) (r : string) :
  frac_part iv s = Some (m, n, r) ->
  (String.length r <= String.length s)%nat.
Proof.
  unfold frac_part. destruct (expect "." s) as [r0|] eqn:E; [|discriminate].
  destruct (starts_with_digit r0); [|discriminate].
  intros [= H]. pose proof (span_digits_length _ _ _ _ _ _ H).
  pose proof (expect_length _ _ _ E). lia.
Qed.

Lemma exp_part_length (s : string) (v : Z) (r : string) :
  exp_part s = Some (v, r) -> (String.length r <= String.length s)%nat.
Proof.
  destruct s as [|c s']; [discriminate|]. unfold exp_part.
  destruct (Ascii.eqb c "e" || Ascii.eqb c "E"); [|discriminate].
  destruct (expect "-" s') as [r1|] eqn:E1;
    [|destruct (expect "+" s') as [r2|] eqn:E2];
    match goal with
    | |- context [starts_with_digit ?ds] =>
        destruct (starts_with_digit ds); [|discriminate];
        destruct (span_digits 0 0 ds) as [[v0 n0] r0] eqn:E;
        intros [= _ <-]; pose proof (span_digits_length _ _ _ _ _ _ E)
    end; simpl;
    try (pose proof (expect_length _ _ _ E1));
    try (pose proof (expect_length _ _ _ E2)); lia.
Qed.

Lemma unsigned_number_length (neg : bool) (s : string) (v : json)
    (r : string) :
  unsigned_number neg s = Some (v, r) ->
  (String.length r < String.length s)%nat.
Proof.
  unfold unsigned_number.
  destruct (int_part s) as [[iv r1]|] eqn:Ei; [|discriminate].
  pose proof (int_part_length _ _ _ Ei).
  destruct (frac_part iv r1) as [[[mant n] r2]|] eqn:Ef.
  - pose proof (frac_part_length _ _ _ _ _ Ef).
    destruct (exp_part r2) as [[ev r3]|] eqn:Ee; intros [= _ <-];
      [pose proof (exp_part_length _ _ _ Ee)|]; lia.
  - destruct (exp_part r1) as [[ev r3]|] eqn:Ee; intros [= _ <-];
      [pose proof (exp_part_length _ _ _ Ee)|]; lia.
Qed.

Lemma parse_number_length (s : string) (v : json) (r : string) :
  parse_number s = Some (v, r) -> (String.length r < String.length s)%nat.
Proof.
  unfold parse_number. destruct (expect "-" s) as [r0|] eqn:E; intros H.
  - pose proof (unsigned_number_length _ _ _ _ H).
    pose proof (expect_length _ _ _ E). lia.
  - exact (unsigned_number_length _ _ _ _ H).
Qed.

Lemma startswith_length (p s : string) :
  startswith p s = true -> (String.length p <= String.length s)%nat.
Proof.
  revert s. induction p as [|a p IH]; intros [|b s]; simpl;
    try discriminate; try lia.
  intros H. apply andb_true_iff in H as [_ H]. specialize (IH s H). lia.
Qed.

Lemma length_drop (n : nat) (s : string) :
  String.length (drop n s) = (String.length s - n)%nat.
Proof.
  revert s. induction n as [|n IH]; intros [|c s]; simpl; auto; lia.
Qed.

Lemma literal_length (lit : string) (v v' : json) (s r : string) :
  (0 < String.length lit)%nat ->
  literal lit v s = Some (v', r) ->
  (String.length r < String.length s)%nat.
Proof.
  unfold literal. intros Hl.
  destruct (startswith lit s) eqn:E; [|discriminate].
  intros [= _ <-]. rewrite length_drop.
  pose proof (startswith_length _ _ E). lia.
Qed.

Lemma first_some_length {A} (s : string) (a b : option (A * string)) :
  (forall v r, a = Some (v, r) -> (String.length r < String.length s)%nat) ->
  (forall v r, b = Some (v, r) -> (String.length r < String.length s)%nat) ->
  forall v r,
    first_some a b = Some (v, r) -> (String.length r < String.length s)%nat.
Proof.
  intros Ha Hb v r. destruct a as [[v0 r0]|]; simpl; [apply Ha | apply Hb].
Qed.

Lemma parse_scalar_length (s : string) (v : json) (r : string) :
  parse_scalar s = Some (v, r) -> (String.length r < String.length s)%nat.
Proof.
  unfold parse_scalar. revert v r.
  repeat (apply first_some_length;
          [intros v r H;
           (exact (parse_number_length _ _ _ H)
            || (eapply literal_length; [|exact H]; simpl; lia))|]).
  intros v r H. eapply literal_length; [|exact H]. simpl; lia.
Qed.

(** A call that succeeds consumes something, and succeeds alike with any
    fuel from twice the length of its text on. *)
Lemma parse_fuel (f : nat) :
  (forall s v r,
      parse_value f s = Some (v, r) ->
      (String.length r < String.length s)%nat
      /\ forall f', (2 * String.length s - 1 <= f')%nat ->
                    parse_value f' s = Some (v, r))
  /\ (forall s acc v r,
         parse_elements f s acc = Some (v, r) ->
         (String.length r < String.length s)%nat
         /\ forall f', (2 * String.length s <= f')%nat ->
                       parse_elements f' s acc = Some (v, r))
  /\ (forall s acc v r,
         parse_members f s acc = Some (v, r) ->
         (String.length r < String.length s)%nat
         /\ forall f', (2 * String.length s <= f')%nat ->
                       parse_members f' s acc = Some (v, r)).
Proof.
  induction f as [|f (IHv & IHe & IHm)];
    [repeat split; intros; discriminate|].
  split; [|split].
  - intros s v r. cbn [parse_value]. destruct s as [|c s']; [discriminate|].
    pose proof (skip_ws_length s') as Hw.
    destruct (Ascii.eqb c "034") eqn:Eq;
      [|destruct (Ascii.eqb c "{") eqn:Eo;
        [|destruct (Ascii.eqb c "[") eqn:Ea]].
    + destruct (parse_string s') as [[t r0]|] eqn:Es; [|discriminate].
      intros [= <- <-]. split.
      * pose proof (parse_string_length _ _ _ _ (le_n _) Es). simpl. lia.
      * intros [|f'] Hf'; [simpl in Hf'; lia|].
        cbn [parse_value]. now rewrite Eq, Es.
    + destruct (expect "}" (skip_ws s')) as [r0|] eqn:Ee.
      * intros [= <- <-]. pose proof (expect_length _ _ _ Ee). split.
        -- simpl. lia.
        -- intros [|f'] Hf'; [simpl in Hf'; lia|].
           cbn [parse_value]. now rewrite Eq, Eo, Ee.
      * intros H. destruct (IHm _ _ _ _ H) as [Hl Hf]. split.
        -- simpl. lia.
        -- intros [|f'] Hf'; [simpl in Hf'; lia|].
           cbn [parse_value]. rewrite Eq, Eo, Ee. apply Hf.
           simpl in Hf'. lia.
    + destruct (expect "]" (skip_ws s')) as [r0|] eqn:Ee.
      * intros [= <- <-]. pose proof (expect_length _ _ _ Ee). split.
        -- simpl. lia.
        -- intros [|f'] Hf'; [simpl in Hf'; lia|].
           cbn [parse_value]. now rewrite Eq, Eo, Ea, Ee.
      * intros H. destruct (IHe _ _ _ _ H) as [Hl Hf]. split.
        -- simpl. lia.
        -- intros [|f'] Hf'; [simpl in Hf'; lia|].
           cbn [parse_value]. rewrite Eq, Eo, Ea, Ee. apply Hf.
           simpl in Hf'. lia.
    + intros H. split; [exact (parse_scalar_length _ _ _ H)|].
      intros [|f'] Hf'; [simpl in Hf'; lia|].
      cbn [parse_value]. now rewrite Eq, Eo, Ea.
  - intros s acc v r. cbn [parse_elements].
    destruct (parse_value f s) as [[v0 r0]|] eqn:Ev; [|discriminate].
    destruct (IHv _ _ _ Ev) as [Hl0 Hf0].
    pose proof (skip_ws_length r0) as Hw.
    destruct (expect "]" (skip_ws r0)) as [r1|] eqn:Ec.
    + intros [= <- <-]. pose proof (expect_length _ _ _ Ec). split; [lia|].
      intros [|f'] Hf'; [lia|].
      cbn [parse_elements]. rewrite (Hf0 f') by lia. now rewrite Ec.
    + destruct (expect "," (skip_ws r0)) as [r1|] eqn:Em; [|discriminate].
      pose proof (expect_length _ _ _ Em).
      pose proof (skip_ws_length r1) as Hw1.
      intros Hrec. destruct (IHe _ _ _ _ Hrec) as [Hl1 Hf1]. split; [lia|].
      intros [|f'] Hf'; [lia|].
      cbn [parse_elements]. rewrite (Hf0 f') by lia. rewrite Ec, Em.
      apply Hf1. lia.
  - intros s acc v r. cbn [parse_members].
    destruct (expect "034" s) as [s'|] eqn:Eq; [|discriminate].
    pose proof (expect_length _ _ _ Eq).
    destruct (parse_string s') as [[k r0]|] eqn:Es; [|discriminate].
    pose proof (parse_string_length _ _ _ _ (le_n _) Es).
    pose proof (skip_ws_length r0).
    destruct (expect ":" (skip_ws r0)) as [r1|] eqn:Ec; [|discriminate].
    pose proof (expect_length _ _ _ Ec).
    pose proof (skip_ws_length r1).
    destruct (parse_value f (skip_ws r1)) as [[v0 r2]|] eqn:Ev;
      [|discriminate].
    destruct (IHv _ _ _ Ev) as [Hl0 Hf0].
    pose proof (skip_ws_length r2).
    destruct (expect "}" (skip_ws r2)) as [r3|] eqn:Ee.
    + intros [= <- <-]. pose proof (expect_length _ _ _ Ee). split; [lia|].
      intros [|f'] Hf'; [lia|].
      cbn [parse_members]. rewrite Eq, Es, Ec.
      rewrite (Hf0 f') by lia. now rewrite Ee.
    + destruct (expect "," (skip_ws r2)) as [r3|] eqn:Em; [|discriminate].
      pose proof (expect_length _ _ _ Em).
      pose proof (skip_ws_length r3).
      intros Hrec. destruct (IHm _ _ _ _ Hrec) as [Hl1 Hf1]. split; [lia|].
      intros [|f'] Hf'; [lia|].
      cbn [parse_members]. rewrite Eq, Es, Ec.
      rewrite (Hf0 f') by lia. rewrite Ee, Em. apply Hf1. lia.
Qed.

(** Whatever a text decodes to with some fuel, it decodes to with the fuel
    of [json_loads]. *)
Theorem parse_value_fuel (f : nat) (s : string) (v : json) (r : string) :
  parse_value f (skip_ws s) = Some (v, r) ->
  parse_value (2 * String.length s + 2) (skip_ws s) = Some (v, r).
Proof.
  intros H. destruct (parse_fuel f) as (Hv & _ & _).
  destruct (Hv _ _ _ H) as [_ Hf]. apply Hf.
  pose proof (skip_ws_length s). lia.
Qed.

(** ** Completion detection *)

Lemma completion_of_result (test : string -> bool) (raw : string)
    (d : list (string * json)) (r : string) :
  json_loads (strip raw) = Ret (JObject d) ->
  dict_get "result" d = Some (JString r) ->
  Tracked.completion test raw = Ret (test (upper (strip r))).
Proof.
  intros Hd Hr. unfold Tracked.completion.
  rewrite (loads_nonempty _ _ Hd), Hd. simpl.
  unfold dict_mem. rewrite Hr. reflexivity.
Qed.

Lemma completion_true_iff (test : string -> bool) (raw : string)
    (data : json) :
  json_loads (strip raw) = Ret data ->
  Tracked.completion test raw = Ret true <->
  exists d r,
    data = JObject d
    /\ dict_get "result" d = Some (JString r)
    /\ test (upper (strip r)) = true.
Proof.
  intros Hd. unfold Tracked.completion.
  rewrite (loads_nonempty _ _ Hd), Hd. split.
  - destruct data as [| | | | |s|l|d]; simpl; try discriminate.
    + destruct (contains "result" s); simpl; discriminate.
    + destruct (existsb _ l); simpl; discriminate.
    + unfold dict_mem. destruct (dict_get "result" d) as [x|] eqn:Hx;
        simpl; [|discriminate].
      destruct x; simpl; try discriminate.
      intros [= H]. now exists d, s.
  - intros (d & r & -> & Hr & Ht). simpl. unfold dict_mem. rewrite Hr.
    simpl. now rewrite Ht.
Qed.

Lemma ascii_cases (P : ascii -> bool) :
  forallb P all_ascii = true -> forall c, P c = true.
Proof.
  intros H c. rewrite forallb_forall in H. apply H.
  rewrite <- (ascii_nat_embedding c). apply in_map. apply in_seq.
  pose proof (nat_ascii_bounded c). lia.
Qed.

(** What [upper] does to a character, seen from a character that is no
    lower-case letter *)
Lemma upper_char_same_letter (c x : ascii) :
  between 97 122 c = false ->
  Ascii.eqb c (upper_char x) = same_letter c x.
Proof.
  intros Hc.
  assert (H : forallb
                (fun c =>
                   forallb
                     (fun x =>
                        between 97 122 c
                        || Bool.eqb (Ascii.eqb c (upper_char x))
                             (same_letter c x))
                     all_ascii)
                all_ascii = true) by (vm_compute; reflexivity).
  pose proof (ascii_cases _ (ascii_cases _ H c) x) as Hcx.
  cbv beta in Hcx. rewrite Hc in Hcx. now apply Bool.eqb_prop in Hcx.
Qed.

Lemma startswith_upper (p s : string) :
  no_lower p = true ->
  startswith p (upper s) = startswith_nocase p s.
Proof.
  revert s. induction p as [|a p IH]; intros s Hp; [reflexivity|].
  simpl in Hp. apply andb_true_iff in Hp as [Ha Hp].
  apply negb_true_iff in Ha.
  destruct s as [|b s]; [reflexivity|]. simpl.
  now rewrite (upper_char_same_letter a b Ha), (IH s Hp).
Qed.

Lemma contains_upper (p s : string) :
  no_lower p = true ->
  contains p (upper s) = contains_nocase p s.
Proof.
  intros Hp. induction s as [|b s IH].
  - simpl. now rewrite <- (startswith_upper p EmptyString Hp).
  - cbn [upper contains contains_nocase]. rewrite IH.
    now rewrite <- (startswith_upper p (String b s) Hp).
Qed.

(** C5. For a record whose [result] is a string [core] between white
    space, [is_done] answers whether [core], stripped, starts with DONE
    and [is_actually_working] whether it contains ACTUALLY_WORKING, the
    case of the letters being ignored: the white space around the result
    and the case of its letters change neither answer. These are the
    answers of the prefix test and of the containment test on the
    stripped, upper-cased result. *)
Theorem completion_detection (raw : string) (d : list (string * json))
    (p1 core p2 : string) :
  json_loads (strip raw) = Ret (JObject d) ->
  dict_get "result" d = Some (JString (p1 ++ core ++ p2)) ->
  all_space p1 = true ->
  all_space p2 = true ->
  Maker.is_done raw = Ret (startswith_nocase "DONE" (strip core))
  /\ Fixer.is_actually_working raw
     = Ret (contains_nocase "ACTUALLY_WORKING" (strip core))
  /\ Maker.is_done raw
     = Ret (startswith "DONE" (upper (strip (p1 ++ core ++ p2))))
  /\ Fixer.is_actually_working raw
     = Ret (contains "ACTUALLY_WORKING" (upper (strip (p1 ++ core ++ p2)))).
Proof.
  intros Hd Hr H1 H2. unfold Maker.is_done, Fixer.is_actually_working.
  rewrite !(completion_of_result _ raw d _ Hd Hr).
  rewrite (strip_pad p1 core p2 H1 H2).
  rewrite (startswith_upper "DONE" _ eq_refl).
  rewrite (contains_upper "ACTUALLY_WORKING" _ eq_refl).
  repeat split.
Qed.

Lemma completion_detection_scenario_C :
  (Maker.is_done scenario_C = Ret true
   /\ Fixer.is_actually_working scenario_C = Ret false)
  /\ Maker.is_done padded_done = Ret true
  /\ Fixer.is_actually_working mixed_case_working = Ret true.
Proof.
  destruct (completion_detection scenario_C
              [("result", JString "DONE: all tasks complete")]
              "" "DONE: all tasks complete" ""
              eq_refl eq_refl eq_refl eq_refl) as (HC1 & HC2 & _).
  destruct (completion_detection padded_done
              [("result",
                JString ("  " ++ "done: all tasks complete"
                         ++ String " " (String newline "")))]
              "  " "done: all tasks complete"
              (String " " (String newline ""))
              eq_refl eq_refl eq_refl eq_refl) as (HP & _).
  destruct (completion_detection mixed_case_working
              [("type", JString "result");
               ("result",
                JString (String (ascii_of_nat 9) ""
                         ++ "now Actually_Working, checked twice" ++ "  "))]
              (String (ascii_of_nat 9) "")
              "now Actually_Working, checked twice" "  "
              eq_refl eq_refl eq_refl eq_refl) as (_ & HM & _).
  exact (conj (conj HC1 HC2) (conj HP HM)).
Defined.

(** ** The epoch after the pipe *)

(** C3. For a record with [is_error] true whose [result] is a string that
    has the rate-limit phrase and a pipe, and in which what follows the
    first pipe reads as the integer [n], [rate_limit_reset_epoch] returns
    [n]: in fixer.py and maker.py as it stands, in claude_loop.py when the
    result has no clock time. *)
Theorem pipe_epoch_returned (raw : string) (d : list (string * json))
    (result timestamp_str : string) (n : Z) :
  json_loads (strip raw) = Ret (JObject d) ->
  dict_get "is_error" d = Some (JBool true) ->
  dict_get "result" d = Some (JString result) ->
  after_first "|" result = Ret timestamp_str ->
  int_of_str timestamp_str = Ret n ->
  (search Tracked.RATE_LIMIT_MSG result <> None ->
   Tracked.rate_limit_reset_epoch raw = Ret (Some n))
  /\ (forall now utcoffset,
        search ClaudeLoop.RATE_LIMIT_MSG result <> None ->
        search ClaudeLoop.RESET_TIME_PATTERN result = None ->
        ClaudeLoop.rate_limit_reset_epoch now utcoffset raw = Ret (Some n)).
Proof.
  intros Hd He Hr Hp Hn.
  pose proof (loads_nonempty _ _ Hd) as Hne.
  pose proof (after_first_contains _ _ _ Hp) as Hc.
  split.
  - intros Hm. unfold Tracked.rate_limit_reset_epoch, Tracked.rate_limit_body.
    rewrite Hne, Hd. simpl. rewrite He. simpl.
    unfold dict_mem. rewrite Hr. simpl.
    destruct (search Tracked.RATE_LIMIT_MSG result); [|congruence].
    simpl. rewrite Hc. simpl. rewrite Hp. simpl. rewrite Hn. reflexivity.
  - intros now utcoffset Hm Hnone.
    unfold ClaudeLoop.rate_limit_reset_epoch, ClaudeLoop.rate_limit_body.
    rewrite Hne, Hd. simpl. rewrite He. simpl.
    unfold dict_mem. rewrite Hr. simpl.
    destruct (search ClaudeLoop.RATE_LIMIT_MSG result); [|congruence].
    simpl. rewrite Hnone. simpl. rewrite Hc. simpl. rewrite Hp. simpl.
    rewrite (int_of_str_strip _ _ Hn). reflexivity.
Qed.

Lemma pipe_epoch_scenario_A :
  Tracked.rate_limit_reset_epoch scenario_A = Ret (Some 1700000000%Z)
  /\ (forall now utcoffset,
        ClaudeLoop.rate_limit_reset_epoch now utcoffset scenario_A
        = Ret (Some 1700000000%Z)).
Proof.
  destruct (pipe_epoch_returned scenario_A
              [("is_error", JBool true);
               ("result", JString "Claude limit reached|1700000000")]
              "Claude limit reached|1700000000" "1700000000" 1700000000)
    as [HT HC]; try reflexivity.
  split.
  - apply HT. vm_compute. discriminate.
  - intros now utcoffset. apply HC; [vm_compute; discriminate | reflexivity].
Defined.

(** ** The clock time of a reset *)

(** Today at [h] o'clock is not after [now] exactly when [h] is not after
    the hour of [now]. *)
Lemma dt_le_today (now : datetime) (h : Z) :
  valid_time now = true ->
  dt_le (mk_datetime (ordinal now) h 0 0 0) now = (h <=? hour now)%Z.
Proof.
  intros V. split_valid V. unfold dt_le. simpl.
  destruct (h <=? hour now)%Z eqn:E.
  - apply Z.leb_le in E. apply Z.leb_le. nia.
  - apply Z.leb_gt in E. apply Z.leb_gt. nia.
Qed.

(** What the clock branch does: while today's hour is still ahead, the
    epoch of today at that hour; once it is reached, [timedelta] is looked
    up and the call raises. *)
Lemma reset_epoch_of_match_cases (now : datetime) (utcoffset : Z)
    (caps : captures) (h : Z) :
  valid_time now = true ->
  int_of_str (group 1 caps) = Ret h ->
  let h24 := hour24 h (lower (group 2 caps)) in
  (0 <= h24 < 24)%Z ->
  ClaudeLoop.reset_epoch_of_match now utcoffset caps =
  if (h24 <=? hour now)%Z then Raise NameError
  else Ret (timestamp utcoffset (mk_datetime (ordinal now) h24 0 0 0)).
Proof.
  intros V Hh h24 Hr. unfold ClaudeLoop.reset_epoch_of_match.
  rewrite Hh. simpl. fold (hour24 h (lower (group 2 caps))). fold h24.
  unfold replace_hour.
  replace ((0 <=? h24)%Z && (h24 <? 24)%Z) with true
    by (symmetry; apply andb_true_iff; split;
        [apply Z.leb_le | apply Z.ltb_lt]; lia).
  simpl. rewrite (dt_le_today now h24 V).
  destruct (h24 <=? hour now)%Z; reflexivity.
Qed.

Lemma scenario_B_body (now : datetime) (utcoffset : Z) :
  ClaudeLoop.rate_limit_reset_epoch now utcoffset scenario_B =
  try_except
    (e <- ClaudeLoop.reset_epoch_of_match now utcoffset
            [(2%nat, "am"); (1%nat, "3")] ;;
     Ret (Some e))
    [JSONDecodeError; ValueError; IndexError] (fun _ => Ret None).
Proof. reflexivity. Qed.

(** C1, at its failing input. For the assistant record with the text
    "Usage limit reached, resets 3am", read at any time from 03:00 on (so
    at 05:00), the call does not return the epoch of 03:00 the next day:
    it raises [NameError], which its handler does not catch. *)
Theorem clock_reset_passed_raises (now : datetime) (utcoffset : Z) :
  valid_time now = true ->
  (3 <= hour now)%Z ->
  ClaudeLoop.rate_limit_reset_epoch now utcoffset scenario_B
  = Raise NameError.
Proof.
  intros V H3. rewrite scenario_B_body.
  rewrite (reset_epoch_of_match_cases now utcoffset
             [(2%nat, "am"); (1%nat, "3")] 3 V eq_refl)
    by (vm_compute; split; [discriminate | reflexivity]).
  change (hour24 3 (lower (group 2 [(2%nat, "am"); (1%nat, "3")]))) with 3%Z.
  replace (3 <=? hour now)%Z with true by (symmetry; apply Z.leb_le; lia).
  reflexivity.
Qed.

Lemma clock_reset_passed_at_five :
  ClaudeLoop.rate_limit_reset_epoch (mk_datetime 739000 5 0 0 0) 0 scenario_B
  = Raise NameError.
Proof.
  apply clock_reset_passed_raises; [reflexivity | simpl; lia].
Defined.

(** Before 03:00 the same record gives the epoch of 03:00 today. *)
Lemma clock_reset_ahead (now : datetime) (utcoffset : Z) :
  valid_time now = true ->
  (hour now < 3)%Z ->
  ClaudeLoop.rate_limit_reset_epoch now utcoffset scenario_B
  = Ret (Some (timestamp utcoffset (mk_datetime (ordinal now) 3 0 0 0))).
Proof.
  intros V H3. rewrite scenario_B_body.
  rewrite (reset_epoch_of_match_cases now utcoffset
             [(2%nat, "am"); (1%nat, "3")] 3 V eq_refl)
    by (vm_compute; split; [discriminate | reflexivity]).
  change (hour24 3 (lower (group 2 [(2%nat, "am"); (1%nat, "3")]))) with 3%Z.
  replace (3 <=? hour now)%Z with false by (symmetry; apply Z.leb_gt; lia).
  reflexivity.
Qed.

(** ** The usage accumulator *)

(** C2, at its failing inputs. A line that decodes but has not the
    expected shape makes [parse_usage_from_json] raise: the handler names
    [JSONDecodeError], [ValueError] and [KeyError], and what such a line
    raises is an [AttributeError] (a null usage, a line that is no object)
    or a [TypeError] (a token count that is no number). *)
Theorem usage_shape_errors_escape (self : Tracked.StatsTracker) :
  Tracked.parse_usage_from_json (dq "{'usage': null}") self
  = (self, Raise AttributeError)
  /\ Tracked.parse_usage_from_json "5" self = (self, Raise AttributeError)
  /\ Tracked.parse_usage_from_json
       (dq "{'usage': {'input_tokens': '12'}}") self
     = (self, Raise TypeError).
Proof. repeat split. Qed.

(** What the handler does cover: a line that does not decode, like the
    empty line, leaves the tracker as it is. *)
Lemma usage_no_op (self : Tracked.StatsTracker) :
  Tracked.parse_usage_from_json "not json" self = (self, Ret tt)
  /\ Tracked.parse_usage_from_json EmptyString self = (self, Ret tt).
Proof. repeat split. Qed.

(** *** Totals and sums *)

Lemma get_count (k : string) (u : list (string * json)) (z : Z) :
  count k u = Some z -> get (JObject u) k (JInt 0) = Ret (JInt z).
Proof.
  unfold count, get. destruct (dict_get k u) as [[]|]; congruence.
Qed.

Import Tracked.

Lemma get_some (k : string) (u : list (string * json)) (v default : json) :
  dict_get k u = Some v -> get (JObject u) k default = Ret v.
Proof. unfold get. now intros ->. Qed.







(** *** Monotone totals *)

(** C7 as stated fails: a line with a negative count lowers a total. *)
Lemma negative_count_lowers_total :
  ~ number_le
      (total_input_tokens init)
      (total_input_tokens
         (fst (parse_usage_from_json
                 (dq "{'usage':{'input_tokens':-5}}") init))).
Proof. vm_compute. intros H. apply H. reflexivity. Qed.

(** Adding a count that is not negative to an [int] total: the sum is an
    [int] no less than the total, or the addition raises. *)
Lemma add_nonneg (t : Z) (v : json) :
  nonneg_value v = true ->
  match add (Int t) v with
  | Ret n => number_le (Int t) n
  | Raise _ => True
  end.
Proof.
  destruct v as [|[|]|z| | | | |]; simpl; try exact (fun _ => I);
    try discriminate.
  - lia.
  - lia.
  - intros H. apply Z.leb_le in H. lia.
Qed.

(** Each of the five additions keeps [grows]. *)
Ltac iadd_grows :=
  let s0 := fresh "s0" in
  let self := fresh "self" in
  let container := fresh "container" in
  let k := fresh "k" in
  let H := fresh "H" in
  let Hk := fresh "Hk" in
  intros s0 self container k H Hk; unfold iadd, bind;
  destruct container as [| | | | | | |u]; try exact H;
  unfold get; simpl in Hk;
  destruct H as (H1 & H2 & H3 & H4);
  destruct self as [[i|] [o|] [r|] [w|] n];
  destruct s0 as [[i0|] [o0|] [r0|] [w0|] n0];
  simpl in H1, H2, H3, H4; try contradiction;
  unfold grows;
  destruct (dict_get k u) as [v|];
  cbn [total_input_tokens total_output_tokens total_cache_read_tokens
       total_cache_write_tokens];
  [ match goal with
    | |- context [add (Int ?t) v] =>
        pose proof (add_nonneg t v Hk) as Hadd;
        destruct (add (Int t) v) as [[m|]|e]; simpl in *;
        try contradiction; repeat split; lia
    end
  | simpl; repeat split; lia ].

Lemma iadd_input_grows :
  forall s0 self container k,
    grows s0 self -> nonneg_in container k = true ->
    grows s0 (fst (iadd total_input_tokens set_input
                     (get container k (JInt 0)) self)).
Proof. iadd_grows. Qed.

Lemma iadd_output_grows :
  forall s0 self container k,
    grows s0 self -> nonneg_in container k = true ->
    grows s0 (fst (iadd total_output_tokens set_output
                     (get container k (JInt 0)) self)).
Proof. iadd_grows. Qed.

Lemma iadd_cache_read_grows :
  forall s0 self container k,
    grows s0 self -> nonneg_in container k = true ->
    grows s0 (fst (iadd total_cache_read_tokens set_cache_read
                     (get container k (JInt 0)) self)).
Proof. iadd_grows. Qed.

Lemma iadd_cache_write_grows :
  forall s0 self container k,
    grows s0 self -> nonneg_in container k = true ->
    grows s0 (fst (iadd total_cache_write_tokens set_cache_write
                     (get container k (JInt 0)) self)).
Proof. iadd_grows. Qed.

(** A step that keeps [grows], followed by steps that keep it *)
Lemma bindM_grows {A B} (s0 : StatsTracker) (m : M A) (k : A -> M B)
    (self : StatsTracker) :
  grows s0 (fst (m self)) ->
  (forall a self', m self = (self', Ret a) -> grows s0 (fst (k a self'))) ->
  grows s0 (fst (bindM m k self)).
Proof.
  intros Hm Hk. unfold bindM.
  destruct (m self) as [self' [a|e]]; simpl in Hm; auto.
Qed.

Lemma parse_usage_body_grows (raw : string) (s0 self : StatsTracker) :
  counts_nonneg raw = true ->
  grows s0 self ->
  grows s0 (fst (parse_usage_body raw self)).
Proof.
  unfold counts_nonneg, parse_usage_body. intros Hc H.
  apply bindM_grows; [exact H|]. unfold lift at 1.
  intros data self1 [= <- Hd]. rewrite Hd in Hc.
  apply bindM_grows; [exact H|]. unfold lift at 1.
  intros usage self1 [= <- Hu].
  assert (Hn : usage_nonneg usage = true).
  { destruct data as [| | | | | | |d]; try discriminate. simpl in Hu.
    destruct (dict_get "usage" d); injection Hu as <-;
      [exact Hc | reflexivity]. }
  clear Hc Hd Hu data. unfold usage_nonneg in Hn.
  apply andb_true_iff in Hn as [Hn Hcc].
  apply andb_true_iff in Hn as [Hn Hr].
  apply andb_true_iff in Hn as [Hi Ho].
  apply bindM_grows; [now apply iadd_input_grows|].
  intros ? self1 E1.
  assert (H1 : grows s0 self1).
  { pose proof (iadd_input_grows s0 self usage "input_tokens" H Hi) as G.
    now rewrite E1 in G. }
  apply bindM_grows; [now apply iadd_output_grows|].
  intros ? self2 E2.
  assert (H2 : grows s0 self2).
  { pose proof (iadd_output_grows s0 self1 usage "output_tokens" H1 Ho) as G.
    now rewrite E2 in G. }
  apply bindM_grows; [now apply iadd_cache_read_grows|].
  intros ? self3 E3.
  assert (H3 : grows s0 self3).
  { pose proof (iadd_cache_read_grows s0 self2 usage
                  "cache_read_input_tokens" H2 Hr) as G.
    now rewrite E3 in G. }
  apply bindM_grows; [exact H3|]. unfold lift at 1.
  intros cache_creation self4 [= <- Hg].
  assert (Hw : nonneg_in cache_creation "ephemeral_5m_input_tokens" = true
               /\ nonneg_in cache_creation "ephemeral_1h_input_tokens"
                  = true).
  { destruct usage as [| | | | | | |u]; try discriminate. simpl in Hg.
    destruct (dict_get "cache_creation" u); injection Hg as <-;
      [now apply andb_true_iff in Hcc | split; reflexivity]. }
  destruct Hw as [H5m H1h].
  apply bindM_grows; [now apply iadd_cache_write_grows|].
  intros ? self5 E5.
  assert (H5 : grows s0 self5).
  { pose proof (iadd_cache_write_grows s0 self3 cache_creation
                  "ephemeral_5m_input_tokens" H3 H5m) as G.
    now rewrite E5 in G. }
  now apply iadd_cache_write_grows.
Qed.

(** C7, amended. On a tracker with [int] totals, a call with a line
    that decodes and in which no token count is a negative integer or a
    float, or with a line without [\u] that does not decode, leaves each
    of the four totals at least as large as it was, whether the call
    returns or raises. *)
Theorem totals_monotone (raw : string) (i o r w n : Z) :
  counts_nonneg raw = true ->
  let self := mk_stats (Int i) (Int o) (Int r) (Int w) n in
  let self' := fst (parse_usage_from_json raw self) in
  number_le (total_input_tokens self) (total_input_tokens self')
  /\ number_le (total_output_tokens self) (total_output_tokens self')
  /\ number_le (total_cache_read_tokens self) (total_cache_read_tokens self')
  /\ number_le (total_cache_write_tokens self)
       (total_cache_write_tokens self').
Proof.
  intros H self self'.
  assert (G : grows self self) by (unfold grows; simpl; lia).
  change (grows self self'). subst self'. unfold parse_usage_from_json.
  destruct (String.eqb raw EmptyString); [exact G|].
  pose proof (parse_usage_body_grows raw self self H G) as G'.
  destruct (parse_usage_body raw self) as [self1 res]. exact G'.
Qed.

Lemma totals_monotone_example :
  let self := mk_stats (Int 1) (Int 2) (Int 3) (Int 4) 1 in
  let self' :=
    fst (parse_usage_from_json
           (dq "{'usage':{'input_tokens':5,'cache_creation':{'ephemeral_1h_input_tokens':3}}}")
           self) in
  number_le (total_input_tokens self) (total_input_tokens self')
  /\ number_le (total_output_tokens self) (total_output_tokens self')
  /\ number_le (total_cache_read_tokens self) (total_cache_read_tokens self')
  /\ number_le (total_cache_write_tokens self)
       (total_cache_write_tokens self').
Proof.
  apply totals_monotone. reflexivity.
Defined.

(** ** The classifier's truncation *)

Lemma length_take (n : nat) (s : string) :
  String.length (take n s) = Nat.min n (String.length s).
Proof.
  revert s. induction n as [|n IH]; intros [|c s]; simpl; auto.
Qed.

Lemma take_take (k n : nat) (s : string) :
  (k <= n)%nat -> take k (take n s) = take k s.
Proof.
  revert n s. induction k as [|k IH]; intros n s H.
  - now destruct (take n s).
  - destruct n as [|n]; [lia|]. destruct s as [|c s]; [reflexivity|].
    simpl. f_equal. apply IH. lia.
Qed.

Lemma rfind_lt (c : ascii) (s : string) (i : nat) :
  rfind c s = Some i -> (i < String.length s)%nat.
Proof.
  revert i. induction s as [|a s IH]; intros i; simpl; [discriminate|].
  destruct (rfind c s) as [j|].
  - intros [= <-]. specialize (IH j eq_refl). lia.
  - destruct (Ascii.eqb a c); [intros [= <-]; lia | discriminate].
Qed.

Import ClaudeLoop.

Lemma summary_python_text (json_line : string) (data : json)
    (text : string) :
  json_loads (strip json_line) = Ret data ->
  first_text data = Some text ->
  summary_python_body json_line
  = (shown <- smart_truncate (JString text) ;;
     Ret (Some (AssistantText shown))).
Proof.
  intros Hd Ht. unfold summary_python_body. rewrite Hd.
  destruct data as [| | | | | |l|d]; try discriminate. simpl in Ht.
  destruct (dict_get "type" d) as [[| | | | |ty| |]|] eqn:Hty;
    try discriminate.
  destruct (dict_get "message" d) as [[| | | | | | |m]|] eqn:Hm;
    try discriminate.
  destruct (String.eqb ty "assistant") eqn:Ea; [|discriminate].
  destruct (dict_get "content" m) as [[| | | | | |[|[| | | | | | |item] l]|]|]
    eqn:Hc; try discriminate.
  destruct (dict_get "type" item) as [[| | | | |ity| |]|] eqn:Hity;
    try discriminate.
  destruct (dict_get "text" item) as [[| | | | |t| |]|] eqn:Htx;
    try discriminate.
  destruct (String.eqb ity "text") eqn:Et; [|discriminate].
  injection Ht as ->.
  unfold bind at 1. unfold bind at 1.
  rewrite (get_some _ _ _ _ Hty). unfold is_str at 1. rewrite Ea.
  unfold bind at 1. rewrite (get_some _ _ _ _ Hm).
  unfold bind at 1. rewrite (get_some _ _ _ _ Hc).
  unfold bind at 1. unfold truthy, len, List.length. 
  change (0 <? S (Datatypes.length l))%nat with true.
  unfold andb. unfold bind at 1. unfold item0.
  unfold bind at 1. rewrite (get_some _ _ _ _ Hity).
  unfold is_str at 1. rewrite Et.
  unfold bind at 1. rewrite (get_some _ _ _ _ Htx).
  reflexivity.
Qed.

Lemma summary_jq_text (jq : string -> string -> result (Z * string))
    (json_line text : string) :
  jq_reports jq json_line text ->
  summary_jq_body jq json_line
  = (shown <- smart_truncate (JString text) ;;
     Ret (Some (AssistantText shown))).
Proof.
  intros (out1 & out2 & f & H1 & H2 & Hf & Hty & Hmt & Htx).
  unfold summary_jq_body. rewrite H1. unfold bind at 1.
  change (negb (fst (0%Z, out1) =? 0)%Z) with false. cbv iota.
  rewrite H2. unfold bind at 1.
  change (fst (0%Z, out2) =? 0)%Z with true. cbv iota.
  change (snd (0%Z, out2)) with out2. rewrite Hf. unfold bind at 1.
  rewrite (get_some _ _ _ _ Hty). unfold bind at 1.
  change (is_str (JString "assistant") "assistant") with true. cbv iota.
  rewrite (get_some _ _ _ _ Hmt). unfold bind at 1.
  unfold get at 1. destruct (dict_get "has_both" f); unfold bind at 1;
    change (is_str (JString "text") "text") with true; cbv iota;
    rewrite (get_some _ _ _ _ Htx); reflexivity.
Qed.

(** What [smart_truncate] makes of a string *)
Lemma smart_truncate_str (text : string) :
  exists shown,
    smart_truncate (JString text) = Ret (JString shown)
    /\ ((String.length text <= 120)%nat -> shown = text)
    /\ ((120 < String.length text)%nat ->
        exists cut,
          (cut <= 120)%nat
          /\ shown = take cut text ++ "..."
          /\ (forall last_space,
                rfind " " (take 120 text) = Some last_space ->
                (100 < last_space)%nat -> cut = last_space)
          /\ ((forall last_space,
                 rfind " " (take 120 text) = Some last_space ->
                 (last_space <= 100)%nat) -> cut = 120%nat)).
Proof.
  unfold smart_truncate, len, bind.
  destruct (120 <? String.length text)%nat eqn:E.
  - apply Nat.ltb_lt in E.
    exists (truncate_text text). split; [reflexivity|].
    split; [lia|]. intros _. unfold truncate_text.
    destruct (rfind " " (take 120 text)) as [ls|] eqn:Hr.
    + pose proof (rfind_lt _ _ _ Hr) as Hlt. rewrite length_take in Hlt.
      destruct (100 <? ls)%nat eqn:E1.
      * apply Nat.ltb_lt in E1. exists ls.
        split; [lia|]. split; [now rewrite take_take by lia|].
        split; [now intros ? [= <-] _|].
        intros H. specialize (H ls eq_refl). lia.
      * apply Nat.ltb_ge in E1. exists 120%nat.
        split; [lia|]. split; [reflexivity|].
        split; [intros ? [= <-] ?; lia | reflexivity].
    + exists 120%nat. split; [lia|]. split; [reflexivity|].
      split; [discriminate | reflexivity].
  - apply Nat.ltb_ge in E. exists text.
    split; [reflexivity|]. split; [reflexivity | lia].
Qed.

(** C4, amended. For an assistant record whose first content item is the
    text [text], the classifier shows a text [shown], on the Python path
    and on the [jq] path alike: [text] itself when it has at most 120
    characters; otherwise at most 120 characters of it and an ellipsis, cut
    at the last space of the first 120 characters when that space is after
    offset 100, and at 120 when there is no such space. *)
Theorem truncation_shape (jq : string -> string -> result (Z * string))
    (json_line : string) (data : json) (text : string) :
  json_loads (strip json_line) = Ret data ->
  first_text data = Some text ->
  exists shown,
    summary_python json_line = Some (AssistantText (JString shown))
    /\ ((forall filter stdin, exists e, jq filter stdin = Raise e) ->
        extract_summary_with_jq jq json_line
        = Some (AssistantText (JString shown)))
    /\ (jq_reports jq json_line text ->
        extract_summary_with_jq jq json_line
        = Some (AssistantText (JString shown)))
    /\ ((String.length text <= 120)%nat -> shown = text)
    /\ ((120 < String.length text)%nat ->
        exists cut,
          (cut <= 120)%nat
          /\ shown = take cut text ++ "..."
          /\ (forall last_space,
                rfind " " (take 120 text) = Some last_space ->
                (100 < last_space)%nat -> cut = last_space)
          /\ ((forall last_space,
                 rfind " " (take 120 text) = Some last_space ->
                 (last_space <= 100)%nat) -> cut = 120%nat)).
Proof.
  intros Hd Ht.
  destruct (smart_truncate_str text) as (shown & Hs & Hshort & Hlong).
  assert (Hpy : summary_python json_line
                = Some (AssistantText (JString shown))).
  { unfold summary_python.
    rewrite (summary_python_text json_line data text Hd Ht), Hs.
    reflexivity. }
  assert (Hne : String.eqb (strip json_line) EmptyString = false).
  { destruct (strip json_line); [discriminate | reflexivity]. }
  exists shown. split; [exact Hpy|].
  split; [|split; [|split; assumption]].
  - intros Hfail. unfold extract_summary_with_jq. rewrite Hne.
    unfold summary_jq_body.
    destruct (Hfail "." (strip json_line)) as [e He]. rewrite He.
    exact Hpy.
  - intros Hjq. unfold extract_summary_with_jq. rewrite Hne.
    rewrite (summary_jq_text jq json_line text Hjq), Hs. reflexivity.
Qed.

(** C4 as stated fails: the last space of the window is at offset 100, and
    the text shown is not cut there but at 120. *)
Lemma cut_at_offset_100_not_taken :
  (120 <? String.length boundary_text)%nat = true
  /\ rfind " " (take 120 boundary_text) = Some 100%nat
  /\ summary_python (text_line boundary_text)
     = Some (AssistantText (JString (take 120 boundary_text ++ "...")))
  /\ take 120 boundary_text ++ "..." <> take 100 boundary_text ++ "...".
Proof.
  repeat split; try (vm_compute; reflexivity).
  vm_compute. discriminate.
Qed.

Lemma truncation_shape_example :
  summary_python (text_line worded_text)
  = Some (AssistantText (JString (take 110 worded_text ++ "..."))).
Proof.
  destruct (truncation_shape (fun _ _ => Raise TimeoutExpired)
              (text_line worded_text) (text_record worded_text) worded_text)
    as (shown & Hpy & _ & _ & _ & Hlong);
    [vm_compute; reflexivity | vm_compute; reflexivity |].
  destruct Hlong as (cut & _ & Hshown & Hcut & _);
    [apply Nat.ltb_lt; vm_compute; reflexivity |].
  rewrite Hpy, Hshown.
  rewrite (Hcut 110%nat);
    [reflexivity | vm_compute; reflexivity
     | apply Nat.ltb_lt; vm_compute; reflexivity].
Defined.

(** ** The loop *)

(** An iteration after which the loop goes on: what was slept, and the
    flag it leaves. *)
Lemma tracked_iteration_continue (is_complete : string -> result bool)
    (PROMPT : string) (single_iteration : bool) (range_error : platform)
    (run : Tracked.child_run) (st st' : Tracked.supervisor)
    (evs : list event) :
  Tracked.iteration is_complete PROMPT single_iteration range_error run st
  = (evs, Continue, st') ->
  exists reset,
    Tracked.rate_limit_reset_epoch (last_json_line (Tracked.log st'))
    = Ret reset
    /\ Tracked.continue_next st'
       = match reset with Some _ => true | None => false end
    /\ evs = Spawn (claude_cmd PROMPT (Tracked.continue_next st))
             :: match reset with
                | Some reset_epoch =>
                    [Sleep (Z.max 0 (reset_epoch - Tracked.current_epoch run))]
                | None => []
                end
             ++ [Sleep 60].
Proof.
  unfold Tracked.iteration.
  destruct (feed _ _) as [stats1 [[]|e]]; [|discriminate].
  destruct (is_complete _) as [[|]|e]; try discriminate.
  destruct (Tracked.rate_limit_reset_epoch _) as [[reset_epoch|]|e] eqn:Hr;
    try discriminate.
  - unfold announce_and_sleep.
    destruct (range_error _ _); [discriminate|].
    destruct single_iteration; [discriminate|].
    intros [= <- <-]. exists (Some reset_epoch). simpl. auto.
  - destruct single_iteration; [discriminate|].
    intros [= <- <-]. exists None. simpl. auto.
Qed.

Lemma claude_loop_iteration_continue (PROMPT : string) (utcoffset : Z)
    (range_error : platform) (run : child_run) (st st' : supervisor)
    (evs : list event) :
  iteration PROMPT utcoffset range_error run st = (evs, Continue, st') ->
  exists reset,
    rate_limit_reset_epoch (now run) utcoffset (last_json_line (log st'))
    = Ret reset
    /\ continue_next st'
       = match reset with Some _ => true | None => false end
    /\ evs = Spawn (claude_cmd PROMPT (continue_next st))
             :: match reset with
                | Some reset_epoch =>
                    [Sleep (Z.max 0 (reset_epoch - current_epoch run))]
                | None => []
                end
             ++ [Sleep 60].
Proof.
  unfold iteration.
  destruct (rate_limit_reset_epoch _ _ _) as [[reset_epoch|]|e] eqn:Hr;
    try discriminate.
  - unfold announce_and_sleep.
    destruct (range_error _ _); [discriminate|].
    intros [= <- <-]. exists (Some reset_epoch). simpl. auto.
  - intros [= <- <-]. exists None. simpl. auto.
Qed.

(** C8. When an iteration does not stop the loop, what it did after the
    spawn ends with the sleep of 60 seconds; when the detector returned a
    reset epoch for the last line of the log, the sleep until that epoch,
    of no less than 0 seconds, comes before it and does not replace it. *)
Theorem cooldown_after_iteration :
  (forall PROMPT single_iteration range_error run st evs st',
      Maker.iteration PROMPT single_iteration range_error run st
      = (evs, Continue, st') ->
      exists reset,
        Tracked.rate_limit_reset_epoch (last_json_line (Tracked.log st'))
        = Ret reset
        /\ evs = Spawn (claude_cmd PROMPT (Tracked.continue_next st))
                 :: match reset with
                    | Some reset_epoch =>
                        [Sleep (Z.max 0
                                  (reset_epoch - Tracked.current_epoch run))]
                    | None => []
                    end
                 ++ [Sleep 60])
  /\ (forall PROMPT utcoffset range_error run st evs st',
         ClaudeLoop.iteration PROMPT utcoffset range_error run st
         = (evs, Continue, st') ->
         exists reset,
           rate_limit_reset_epoch (now run) utcoffset
             (last_json_line (log st'))
           = Ret reset
           /\ evs = Spawn (claude_cmd PROMPT (continue_next st))
                    :: match reset with
                       | Some reset_epoch =>
                           [Sleep (Z.max 0 (reset_epoch - current_epoch run))]
                       | None => []
                       end
                    ++ [Sleep 60]).
Proof.
  split.
  - intros PROMPT single_iteration range_error run st evs st' H.
    destruct (tracked_iteration_continue _ _ _ _ _ _ _ _ H)
      as (reset & Hr & _ & He).
    now exists reset.
  - intros PROMPT utcoffset range_error run st evs st' H.
    destruct (claude_loop_iteration_continue _ _ _ _ _ _ _ H)
      as (reset & Hr & _ & He).
    now exists reset.
Qed.

Lemma cooldown_after_limited_run :
  exists reset,
    Tracked.rate_limit_reset_epoch
      (last_json_line
         (Tracked.log
            (snd (Maker.iteration "prompt" false wide_platform limited_run
                    (Tracked.start "")))))
    = Ret reset
    /\ [Spawn (claude_cmd "prompt" false); Sleep 1000; Sleep 60]
       = Spawn (claude_cmd "prompt"
                  (Tracked.continue_next (Tracked.start "")))
         :: match reset with
            | Some reset_epoch =>
                [Sleep (Z.max 0
                          (reset_epoch - Tracked.current_epoch limited_run))]
            | None => []
            end
         ++ [Sleep 60].
Proof.
  apply (proj1 cooldown_after_iteration "prompt" false wide_platform
           limited_run
           (Tracked.start "")).
  vm_compute. reflexivity.
Defined.

(** *** The resume flag *)

Lemma claude_cmd_continue (PROMPT : string) (continue_flag : bool) :
  PROMPT <> "--continue" ->
  In "--continue" (claude_cmd PROMPT continue_flag) <-> continue_flag = true.
Proof.
  intros HP. unfold claude_cmd. destruct continue_flag; simpl.
  - split; [reflexivity | intros _; right; left; reflexivity].
  - split; [|discriminate].
    intros [H|[H|[H|[H|[H|[H|[H|[]]]]]]]]; try discriminate.
    elim (HP H).
Qed.

(** Every iteration begins by spawning the child with the command built
    from the flag. *)
Lemma tracked_iteration_spawns (is_complete : string -> result bool)
    (PROMPT : string) (single_iteration : bool) (range_error : platform)
    (run : Tracked.child_run) (st : Tracked.supervisor) :
  exists rest,
    fst (fst (Tracked.iteration is_complete PROMPT single_iteration
                range_error run st))
    = Spawn (claude_cmd PROMPT (Tracked.continue_next st)) :: rest.
Proof.
  unfold Tracked.iteration.
  destruct (feed _ _) as [stats1 [[]|e]]; [|eexists; reflexivity].
  destruct (is_complete _) as [[|]|e]; try (eexists; reflexivity).
  destruct (Tracked.rate_limit_reset_epoch _) as [[reset_epoch|]|e];
    try (eexists; reflexivity).
  - destruct (announce_and_sleep _ _ _); [|eexists; reflexivity].
    destruct single_iteration; eexists; reflexivity.
  - destruct single_iteration; eexists; reflexivity.
Qed.

(** After the first, a state at the top of an iteration has the flag set
    exactly when the detector answered with an epoch on the log it
    holds. *)
Lemma trajectory_flag (is_complete : string -> result bool)
    (PROMPT : string) (single_iteration : bool) (range_error : platform)
    (runs : list Tracked.child_run) :
  forall (st : Tracked.supervisor) (n : nat) (st_n : Tracked.supervisor),
    nth_error
      (Tracked.trajectory is_complete PROMPT single_iteration range_error
         runs st) (S n)
    = Some st_n ->
    Tracked.continue_next st_n = true <->
    exists reset_epoch,
      Tracked.rate_limit_reset_epoch (last_json_line (Tracked.log st_n))
      = Ret (Some reset_epoch).
Proof.
  induction runs as [|run runs IH]; intros st n st_n; simpl.
  - destruct n; discriminate.
  - destruct (Tracked.iteration _ _ _ _ run st) as [[evs out] st'] eqn:Hi.
    destruct out; try (destruct n; discriminate).
    destruct n as [|n].
    + intros H.
      assert (st_n = st') as -> by (destruct runs; simpl in H; congruence).
      destruct (tracked_iteration_continue _ _ _ _ _ _ _ _ Hi)
        as (reset & Hr & Hf & _).
      rewrite Hr, Hf. destruct reset as [e|].
      * split; [intros _; now exists e | reflexivity].
      * split; [discriminate | intros [e [=]]].
    + apply IH.
Qed.

(** C9. In a run of maker.py, the command of an iteration has --continue
    exactly when the iteration is not the first and the detector returned
    a reset epoch on the last line of the log as the iteration before left
    it; the iteration spawns the child with that command. *)
Theorem resume_flag (PROMPT : string) (single_iteration : bool)
    (range_error : platform) (log0 : string) (runs : list Tracked.child_run)
    (n : nat) (st : Tracked.supervisor) :
  PROMPT <> "--continue" ->
  nth_error
    (Maker.trajectory PROMPT single_iteration range_error runs
       (Tracked.start log0)) n
  = Some st ->
  (In "--continue" (claude_cmd PROMPT (Tracked.continue_next st)) <->
   n <> 0%nat
   /\ exists reset_epoch,
        Tracked.rate_limit_reset_epoch (last_json_line (Tracked.log st))
        = Ret (Some reset_epoch))
  /\ (forall run, exists rest,
        fst (fst (Maker.iteration PROMPT single_iteration range_error run st))
        = Spawn (claude_cmd PROMPT (Tracked.continue_next st)) :: rest).
Proof.
  intros HP Hn. split; [|intros run; apply tracked_iteration_spawns].
  rewrite (claude_cmd_continue PROMPT _ HP).
  destruct n as [|n].
  - assert (st = Tracked.start log0) as ->.
    { destruct runs; simpl in Hn; now injection Hn. }
    simpl. split; [discriminate | intros [H _]; now elim H].
  - rewrite (trajectory_flag _ _ _ _ _ _ _ _ Hn).
    split; [intros H; split; [discriminate | exact H] | intros [_ H]; exact H].
Qed.

Lemma resume_flag_example :
  In "--continue"
    (claude_cmd "prompt"
       (Tracked.continue_next
          (snd (Maker.iteration "prompt" false wide_platform limited_run
                  (Tracked.start ""))))).
Proof.
  apply (resume_flag "prompt" false wide_platform "" [limited_run; quiet_run] 1%nat);
    [discriminate | vm_compute; reflexivity |].
  split; [discriminate|]. exists 1700000000%Z. vm_compute. reflexivity.
Defined.

(** *** Completion stops the loop *)





(** * Further properties *)

(** ** The last line of the log *)

Lemma append_assoc (a b c : string) : (a ++ b) ++ c = a ++ b ++ c.
Proof. induction a as [|x a IH]; simpl; [reflexivity | now rewrite IH]. Qed.

Lemma append_empty_r (s : string) : s ++ EmptyString = s.
Proof. induction s as [|c s IH]; simpl; [reflexivity | now rewrite IH]. Qed.

Lemma rev_onto_app (s acc : string) : rev_onto s acc = rev s ++ acc.
Proof.
  unfold rev. revert acc. induction s as [|c s IH]; intros acc; simpl.
  - reflexivity.
  - rewrite (IH (String c acc)), (IH (String c EmptyString)).
    now rewrite append_assoc.
Qed.

Lemma rev_cons (c : ascii) (s : string) :
  rev (String c s) = rev s ++ String c EmptyString.
Proof. unfold rev at 1. simpl. apply rev_onto_app. Qed.

Lemma rev_app (a b : string) : rev (a ++ b) = rev b ++ rev a.
Proof.
  induction a as [|c a IH]; simpl.
  - now rewrite append_empty_r.
  - now rewrite !rev_cons, IH, append_assoc.
Qed.

Lemma all_newlines_app (a b : string) :
  all_newlines (a ++ b) = all_newlines a && all_newlines b.
Proof.
  induction a as [|c a IH]; simpl; [reflexivity|].
  now rewrite IH, andb_assoc.
Qed.

Lemma all_newlines_rev (s : string) :
  all_newlines s = true -> all_newlines (rev s) = true.
Proof.
  induction s as [|c s IH]; simpl; [reflexivity|].
  intros H. apply andb_true_iff in H as [Hc Hs].
  rewrite rev_cons, all_newlines_app, (IH Hs). simpl. now rewrite Hc.
Qed.

(** Line feeds met before anything is collected are passed over. *)
Lemma scan_back_skip (nls rest : string) :
  all_newlines nls = true ->
  scan_back (nls ++ rest) EmptyString = scan_back rest EmptyString.
Proof.
  induction nls as [|c nls IH]; simpl; [reflexivity|].
  intros H. apply andb_true_iff in H as [Hc Hs]. rewrite Hc. auto.
Qed.

(** The characters of a line are collected in their order. *)
Lemma scan_back_collect (line rest buf : string) :
  no_newline line = true ->
  scan_back (rev line ++ rest) buf = scan_back rest (line ++ buf).
Proof.
  revert rest buf. induction line as [|c line IH]; intros rest buf; simpl;
    [reflexivity|].
  intros H. apply andb_true_iff in H as [Hc Hl].
  rewrite rev_cons, append_assoc, (IH _ _ Hl). simpl.
  destruct (Ascii.eqb c newline); [discriminate | reflexivity].
Qed.

(** What [scan_back] returns holds no line feed. *)
Lemma scan_back_no_newline (rev_log buf : string) :
  no_newline buf = true -> no_newline (scan_back rev_log buf) = true.
Proof.
  revert buf. induction rev_log as [|c r IH]; intros buf Hb; simpl;
    [exact Hb|].
  destruct (Ascii.eqb c newline) eqn:E.
  - destruct buf; [now apply IH | exact Hb].
  - apply IH. simpl. now rewrite E.
Qed.

(** X1. [last_json_line] returns the last line that is not empty: when
    the log ends with a line [line] without line feed, followed by line
    feeds only, and [line] is at the start of the log or after a line
    feed, the result is [line]. *)
Theorem last_json_line_last (pre line nls : string) :
  line <> EmptyString ->
  no_newline line = true ->
  all_newlines nls = true ->
  last_json_line (pre ++ String newline EmptyString ++ line ++ nls) = line
  /\ last_json_line (line ++ nls) = line.
Proof.
  intros Hne Hl Hn. unfold last_json_line.
  assert (Hb : forall rest,
             rest = EmptyString \/ (exists r, rest = String newline r) ->
             scan_back (rev nls ++ rev line ++ rest) EmptyString = line).
  { intros rest Hrest.
    rewrite (scan_back_skip _ _ (all_newlines_rev _ Hn)).
    rewrite (scan_back_collect _ _ _ Hl), append_empty_r.
    destruct Hrest as [-> | [r ->]]; [reflexivity|].
    simpl. destruct line; [now elim Hne | reflexivity]. }
  split.
  - rewrite !rev_app, !append_assoc. apply Hb. right.
    rewrite rev_cons. simpl. now eexists.
  - rewrite rev_app. rewrite <- (append_empty_r (rev line)).
    apply Hb. now left.
Qed.

Lemma last_json_line_last_example :
  last_json_line
    (scenario_C ++ line_feed ++ scenario_A ++ line_feed ++ line_feed)
  = scenario_A.
Proof.
  apply (last_json_line_last scenario_C scenario_A (line_feed ++ line_feed));
    [discriminate | reflexivity | reflexivity].
Defined.

(** X2. The result of [last_json_line] holds no line feed, and line feeds
    at the end of the log do not change it: a child that prints nothing,
    or empty lines only, leaves the last line of the log what it was. *)
Theorem last_json_line_trailing (log nls : string) :
  all_newlines nls = true ->
  last_json_line (log ++ nls) = last_json_line log
  /\ no_newline (last_json_line log) = true.
Proof.
  intros Hn. unfold last_json_line. split.
  - now rewrite rev_app, (scan_back_skip _ _ (all_newlines_rev _ Hn)).
  - now apply scan_back_no_newline.
Qed.

Lemma last_json_line_trailing_example :
  last_json_line ((scenario_A ++ line_feed) ++ line_feed ++ line_feed)
  = last_json_line (scenario_A ++ line_feed)
  /\ no_newline (last_json_line (scenario_A ++ line_feed)) = true.
Proof.
  apply last_json_line_trailing. reflexivity.
Defined.

(** ** What the detectors accept, and when they raise *)

Lemma contains_after_first (c : ascii) (s : string) :
  contains (String c EmptyString) s = true ->
  exists t, after_first c s = Ret t.
Proof.
  induction s as [|a s IH]; simpl; [discriminate|].
  rewrite (Ascii.eqb_sym c a). destruct (Ascii.eqb a c) eqn:E; simpl.
  - intros _. now eexists.
  - exact IH.
Qed.

Lemma json_loads_raises (s : string) (e : exn) :
  json_loads s = Raise e -> e = JSONDecodeError.
Proof.
  unfold json_loads.
  destruct (parse_value _ _) as [[v r]|]; [|congruence].
  destruct (skip_ws r); congruence.
Qed.

Lemma int_of_str_raises (s : string) (e : exn) :
  int_of_str s = Raise e -> e = ValueError.
Proof.
  unfold int_of_str, int_body, signed. intros Hi.
  destruct (skip_int_space s) as [|c r]; [congruence|].
  repeat match type of Hi with
         | context [if ?b then _ else _] => destruct b
         | context [match ?x with Some _ => _ | None => _ end] =>
             destruct x
         end; congruence.
Qed.

(** X3. On a line that decodes, [is_done] and [is_actually_working]
    answer True for nothing but an object whose [result] is a string
    passing the test: no other decoded line stops the loop as
    completed. *)
Theorem completion_only_on_result (raw : string) (data : json) :
  json_loads (strip raw) = Ret data ->
  (Maker.is_done raw = Ret true <->
   exists d r,
     data = JObject d
     /\ dict_get "result" d = Some (JString r)
     /\ startswith "DONE" (upper (strip r)) = true)
  /\ (Fixer.is_actually_working raw = Ret true <->
      exists d r,
        data = JObject d
        /\ dict_get "result" d = Some (JString r)
        /\ contains "ACTUALLY_WORKING" (upper (strip r)) = true).
Proof. intros Hd. split; apply completion_true_iff; exact Hd. Qed.

Lemma completion_only_on_result_example :
  exists d r,
    JObject [("result", JString "DONE: all tasks complete")] = JObject d
    /\ dict_get "result" d = Some (JString r)
    /\ startswith "DONE" (upper (strip r)) = true.
Proof.
  apply (proj1 (proj1 (completion_only_on_result scenario_C
                         (JObject
                            [("result", JString "DONE: all tasks complete")])
                         eq_refl))).
  reflexivity.
Defined.

(** X4. On a line that decodes, the detector of fixer.py and maker.py
    returns an epoch [n] for nothing but an object whose [is_error] is
    true in a condition and whose [result] is a string with the phrase
    and a pipe, what follows the first pipe reading as [n]. *)
Theorem tracked_epoch_iff (raw : string) (data : json) (n : Z) :
  json_loads (strip raw) = Ret data ->
  Tracked.rate_limit_reset_epoch raw = Ret (Some n) <->
  exists d is_error result timestamp_str,
    data = JObject d
    /\ dict_get "is_error" d = Some is_error
    /\ truthy is_error = true
    /\ dict_get "result" d = Some (JString result)
    /\ search Tracked.RATE_LIMIT_MSG result <> None
    /\ after_first "|" result = Ret timestamp_str
    /\ int_of_str timestamp_str = Ret n.
Proof.
  intros Hd.
  unfold Tracked.rate_limit_reset_epoch, Tracked.rate_limit_body.
  rewrite (loads_nonempty _ _ Hd), Hd. split.
  - destruct data as [| | | | | | |d]; simpl; try discriminate.
    destruct (dict_get "is_error" d) as [is_error|] eqn:He; simpl;
      [|discriminate].
    destruct (truthy is_error) eqn:Ht; simpl; [|discriminate].
    unfold dict_mem. destruct (dict_get "result" d) as [result|] eqn:Hr;
      simpl; [|discriminate].
    destruct result as [| | | | |result| |]; simpl; try discriminate.
    destruct (search Tracked.RATE_LIMIT_MSG result) eqn:Hs; simpl;
      [|discriminate].
    destruct (contains "|" result) eqn:Hc; simpl; [|discriminate].
    destruct (contains_after_first _ _ Hc) as [ts Hts]. rewrite Hts. simpl.
    destruct (int_of_str ts) as [m|e] eqn:Hi;
      [|apply int_of_str_raises in Hi; subst e; discriminate].
    simpl. intros [= <-]. exists d, is_error, result, ts.
    repeat split; try assumption. congruence.
  - intros (d & is_error & result & ts & -> & He & Ht & Hr & Hs & Hp & Hi).
    simpl. rewrite He. simpl.
    rewrite Ht. simpl. unfold dict_mem. rewrite Hr. simpl.
    destruct (search Tracked.RATE_LIMIT_MSG result); [|congruence]. simpl.
    rewrite (after_first_contains _ _ _ Hp). simpl. rewrite Hp. simpl.
    now rewrite Hi.
Qed.

Lemma tracked_epoch_iff_example :
  exists d is_error result timestamp_str,
    JObject [("is_error", JBool true);
             ("result", JString "Claude limit reached|1700000000")]
    = JObject d
    /\ dict_get "is_error" d = Some is_error
    /\ truthy is_error = true
    /\ dict_get "result" d = Some (JString result)
    /\ search Tracked.RATE_LIMIT_MSG result <> None
    /\ after_first "|" result = Ret timestamp_str
    /\ int_of_str timestamp_str = Ret 1700000000%Z.
Proof.
  apply (proj1 (tracked_epoch_iff scenario_A
                  (JObject
                     [("is_error", JBool true);
                      ("result", JString "Claude limit reached|1700000000")])
                  1700000000 eq_refl)).
  reflexivity.
Defined.

(** X5. On a line that decodes to a value within the limits of the
    interpreter, the detector of fixer.py and maker.py raises in two
    cases and no other: the value is no object ([AttributeError]), or it
    is an object with [is_error] true in a condition whose [result] is no
    string ([TypeError]). *)
Theorem tracked_detector_raises_iff (raw : string) (data : json)
    (e : exn) :
  json_loads (strip raw) = Ret data ->
  within_limits data = true ->
  Tracked.rate_limit_reset_epoch raw = Raise e <->
  (is_object data = false /\ e = AttributeError)
  \/ (exists d is_error result,
         data = JObject d
         /\ dict_get "is_error" d = Some is_error
         /\ truthy is_error = true
         /\ dict_get "result" d = Some result
         /\ is_string result = false /\ e = TypeError).
Proof.
  intros Hd _.
  unfold Tracked.rate_limit_reset_epoch, Tracked.rate_limit_body.
  rewrite (loads_nonempty _ _ Hd), Hd. split.
  - destruct data as [| | | | | | |d]; simpl;
      try (intros [= <-]; left; split; reflexivity).
    destruct (dict_get "is_error" d) as [is_error|] eqn:He; simpl;
      [|discriminate].
    destruct (truthy is_error) eqn:Ht; simpl; [|discriminate].
    unfold dict_mem. destruct (dict_get "result" d) as [result|] eqn:Hr;
      simpl; [|discriminate].
    destruct result as [| | | | |result| |]; simpl;
      try (intros [= <-]; right; exists d, is_error; eexists;
           repeat split; (eassumption || reflexivity)).
    destruct (search Tracked.RATE_LIMIT_MSG result); simpl;
      [|discriminate].
    destruct (contains "|" result) eqn:Hc; simpl; [|discriminate].
    destruct (contains_after_first _ _ Hc) as [ts Hts]. rewrite Hts. simpl.
    destruct (int_of_str ts) as [m|e1] eqn:Hi; simpl; [discriminate|].
    apply int_of_str_raises in Hi. subst e1. discriminate.
  - intros [(Ho & ->) | (d & is_error & result & -> & He & Ht & Hr & Hs
                         & ->)].
    + destruct data; try discriminate; reflexivity.
    + simpl. rewrite He. simpl.
      rewrite Ht. simpl. unfold dict_mem. rewrite Hr. simpl.
      destruct result; try discriminate; reflexivity.
Qed.

Lemma tracked_detector_raises_iff_example :
  (is_object (JObject [("is_error", JBool true); ("result", JInt 5)]) = false
   /\ TypeError = AttributeError)
  \/ (exists d is_error result,
         JObject [("is_error", JBool true); ("result", JInt 5)] = JObject d
         /\ dict_get "is_error" d = Some is_error
         /\ truthy is_error = true
         /\ dict_get "result" d = Some result
         /\ is_string result = false /\ TypeError = TypeError).
Proof.
  apply (proj1 (tracked_detector_raises_iff numeric_error
                  (JObject [("is_error", JBool true); ("result", JInt 5)])
                  TypeError eq_refl eq_refl)).
  reflexivity.
Defined.

(** ** The loop, iteration after iteration *)

Lemma concat_cons (x : string) (xs : list string) :
  String.concat EmptyString (x :: xs) = x ++ String.concat EmptyString xs.
Proof. destruct xs; simpl; [now rewrite append_empty_r | reflexivity]. Qed.

Lemma concat_app (l1 l2 : list string) :
  String.concat EmptyString (l1 ++ l2)
  = String.concat EmptyString l1 ++ String.concat EmptyString l2.
Proof.
  induction l1 as [|x l1 IH]; [reflexivity|].
  change ((x :: l1) ++ l2)%list with (x :: (l1 ++ l2))%list.
  now rewrite !concat_cons, IH, append_assoc.
Qed.


Lemma blind_lift {A} (r : result A) : blind (lift r).
Proof. intros k self. reflexivity. Qed.

Lemma blind_bindM {A B} (m : M A) (f : A -> M B) :
  blind m -> (forall a, blind (f a)) -> blind (bindM m f).
Proof.
  intros Hm Hf k self. unfold bindM. rewrite Hm.
  destruct (m self) as [s [a|e]]; simpl; [apply Hf | reflexivity].
Qed.

Ltac blind_iadd :=
  let k := fresh "k" in
  let v := fresh "v" in
  intros k [? ? ? ? ?]; unfold iadd; simpl;
  match goal with
  | |- context [bind ?op _] => destruct op as [v|]; simpl; [|reflexivity]
  end;
  match goal with
  | |- context [add ?t v] => destruct (add t v); reflexivity
  end.

Lemma blind_iadd_input (operand : result json) :
  blind (iadd total_input_tokens set_input operand).
Proof. blind_iadd. Qed.

Lemma blind_iadd_output (operand : result json) :
  blind (iadd total_output_tokens set_output operand).
Proof. blind_iadd. Qed.

Lemma blind_iadd_cache_read (operand : result json) :
  blind (iadd total_cache_read_tokens set_cache_read operand).
Proof. blind_iadd. Qed.

Lemma blind_iadd_cache_write (operand : result json) :
  blind (iadd total_cache_write_tokens set_cache_write operand).
Proof. blind_iadd. Qed.

Lemma blind_parse_usage_body (raw : string) : blind (parse_usage_body raw).
Proof.
  unfold parse_usage_body.
  repeat (apply blind_bindM;
          [first [apply blind_lift | apply blind_iadd_input
                 | apply blind_iadd_output | apply blind_iadd_cache_read
                 | apply blind_iadd_cache_write]
          | intros ?]).
  apply blind_iadd_cache_write.
Qed.

Lemma blind_parse_usage_from_json (raw : string) :
  blind (parse_usage_from_json raw).
Proof.
  intros k self. unfold parse_usage_from_json.
  destruct (String.eqb raw EmptyString); [reflexivity|].
  rewrite (blind_parse_usage_body raw k self).
  destruct (parse_usage_body raw self) as [s r]. reflexivity.
Qed.

Lemma blind_feed (lines : list string) : blind (feed lines).
Proof.
  induction lines as [|line lines IH]; simpl.
  - apply blind_lift.
  - apply blind_bindM; [apply blind_parse_usage_from_json | intros _; exact IH].
Qed.

Lemma set_iterations_same (self : StatsTracker) :
  set_iterations (iterations self) self = self.
Proof. now destruct self. Qed.


(** Feeding lines leaves the iteration counter as it is. *)
Lemma feed_iterations (lines : list string) (self : StatsTracker) :
  iterations (fst (feed lines self)) = iterations self.
Proof.
  pose proof (blind_feed lines (iterations self) self) as H.
  rewrite set_iterations_same in H.
  destruct (feed lines self) as [s r]. simpl in *.
  injection H as H. now rewrite H.
Qed.

(** What an iteration of fixer.py or maker.py leaves, however it ends *)
Lemma tracked_iteration_state (is_complete : string -> result bool)
    (PROMPT : string) (single_iteration : bool) (range_error : platform)
    (run : Tracked.child_run) (st st' : Tracked.supervisor)
    (evs : list event) (out : outcome) :
  Tracked.iteration is_complete PROMPT single_iteration range_error run st
  = (evs, out, st') ->
  Tracked.log st'
  = Tracked.log st ++ String.concat EmptyString (Tracked.output run)
  /\ Tracked.stats st'
     = fst (feed (map strip (Tracked.output run))
              (set_iterations (iterations (Tracked.stats st) + 1)
                 (Tracked.stats st)))
  /\ (out = Continue ->
      feed (map strip (Tracked.output run))
        (set_iterations (iterations (Tracked.stats st) + 1)
           (Tracked.stats st))
      = (Tracked.stats st', Ret tt)).
Proof.
  unfold Tracked.iteration.
  destruct (feed _ _) as [stats1 [[]|e]];
    [|intros [= <- <- <-]; repeat split; discriminate].
  destruct (is_complete _) as [[|]|e];
    try (intros [= <- <- <-]; repeat split; discriminate).
  destruct (Tracked.rate_limit_reset_epoch _) as [[reset_epoch|]|e];
    try (intros [= <- <- <-]; repeat split; discriminate).
  - destruct (announce_and_sleep _ _ _);
      [|intros [= <- <- <-]; repeat split; discriminate].
    destruct single_iteration; intros [= <- <- <-]; repeat split.
  - destruct single_iteration; intros [= <- <- <-]; repeat split.
Qed.

Lemma nth_error_one {A} (x y : A) (n : nat) :
  nth_error [x] n = Some y -> n = 0%nat /\ y = x.
Proof.
  destruct n as [|[|n]]; simpl; try discriminate.
  intros [= <-]. now split.
Qed.

(** X6. In fixer.py and maker.py, the state at the top of the iteration
    after [n] completed ones has counted [n] iterations, and its log is
    the log it started with followed by all that the [n] children wrote:
    nothing of the log is ever dropped or rewritten. *)
Theorem tracked_trajectory_state (is_complete : string -> result bool)
    (PROMPT : string) (single_iteration : bool) (range_error : platform)
    (runs : list Tracked.child_run) :
  forall (st : Tracked.supervisor) (n : nat) (st_n : Tracked.supervisor),
    nth_error
      (Tracked.trajectory is_complete PROMPT single_iteration range_error
         runs st) n
    = Some st_n ->
    iterations (Tracked.stats st_n)
    = (iterations (Tracked.stats st) + Z.of_nat n)%Z
    /\ Tracked.log st_n
       = Tracked.log st
         ++ String.concat EmptyString (written Tracked.output n runs).
Proof.
  induction runs as [|run runs IH]; intros st n st_n H.
  - apply nth_error_one in H as [-> ->]. simpl.
    now rewrite Z.add_0_r, append_empty_r.
  - destruct n as [|n].
    + injection H as <-. simpl. now rewrite Z.add_0_r, append_empty_r.
    + simpl in H.
      destruct (Tracked.iteration _ _ _ _ run st) as [[evs out] st'] eqn:Hi.
      destruct out; try (destruct n; discriminate).
      destruct (tracked_iteration_state _ _ _ _ _ _ _ _ _ Hi)
        as (Hlog & Hstats & _).
      destruct (IH st' n st_n H) as [Hc Hl]. split.
      * rewrite Hc, Hstats, feed_iterations. simpl. lia.
      * rewrite Hl, Hlog. unfold written. simpl.
        now rewrite concat_app, append_assoc.
Qed.

Lemma tracked_trajectory_state_example :
  let st :=
    snd (Maker.iteration "prompt" false wide_platform quiet_run
           (snd (Maker.iteration "prompt" false wide_platform limited_run
                   (Tracked.start "earlier")))) in
  iterations (Tracked.stats st) = (0 + 2)%Z
  /\ Tracked.log st
     = "earlier"
       ++ String.concat EmptyString
            (written Tracked.output 2 [limited_run; quiet_run]).
Proof.
  apply (tracked_trajectory_state Maker.is_done "prompt" false wide_platform
           [limited_run; quiet_run] (Tracked.start "earlier") 2%nat).
  vm_compute. reflexivity.
Defined.






(** ** How an iteration ends *)

(** X8. With --single, fixer.py and maker.py never go on to a second
    iteration; when the iteration ends as the single one, it has slept
    until the reset if the detector returned an epoch, and the pause of
    60 seconds is not made. *)
Theorem single_mode_one_iteration (is_complete : string -> result bool)
    (PROMPT : string) (range_error : platform) (run : Tracked.child_run)
    (st : Tracked.supervisor) :
  let r := Tracked.iteration is_complete PROMPT true range_error run st in
  snd (fst r) <> Continue
  /\ (forall runs,
         Tracked.trajectory is_complete PROMPT true range_error runs st
         = [st])
  /\ (snd (fst r) = SingleDone ->
      exists reset,
        Tracked.rate_limit_reset_epoch
          (last_json_line (Tracked.log (snd r)))
        = Ret reset
        /\ fst (fst r)
           = Spawn (claude_cmd PROMPT (Tracked.continue_next st))
             :: match reset with
                | Some reset_epoch =>
                    [Sleep (Z.max 0
                              (reset_epoch - Tracked.current_epoch run))]
                | None => []
                end).
Proof.
  assert (Hne : forall run',
             snd (fst (Tracked.iteration is_complete PROMPT true range_error
                         run' st))
             <> Continue).
  { intros run'. unfold Tracked.iteration.
    destruct (feed _ _) as [stats1 [[]|e]]; [|discriminate].
    destruct (is_complete _) as [[|]|e]; try discriminate.
    destruct (Tracked.rate_limit_reset_epoch _) as [[reset_epoch|]|e];
      try discriminate.
    destruct (announce_and_sleep _ _ _); discriminate. }
  intros r. split; [apply Hne|]. split.
  - intros [|run' rest]; [reflexivity|]. simpl.
    specialize (Hne run').
    destruct (Tracked.iteration _ _ _ _ run' st) as [[evs out] st'].
    destruct out; try reflexivity. now elim Hne.
  - subst r. unfold Tracked.iteration.
    destruct (feed _ _) as [stats1 [[]|e]]; [|discriminate].
    destruct (is_complete _) as [[|]|e]; try discriminate.
    destruct (Tracked.rate_limit_reset_epoch _) as [[reset_epoch|]|e] eqn:Hr;
      try discriminate.
    + unfold announce_and_sleep. destruct (range_error _ _); [discriminate|].
      intros _. exists (Some reset_epoch). now split.
    + intros _. exists None. now split.
Qed.

Lemma single_mode_one_iteration_example :
  exists reset,
    Tracked.rate_limit_reset_epoch
      (last_json_line
         (Tracked.log
            (snd (Tracked.iteration Maker.is_done "prompt" true wide_platform
                    limited_run (Tracked.start "")))))
    = Ret reset
    /\ [Spawn (claude_cmd "prompt" false); Sleep 1000]
       = Spawn (claude_cmd "prompt"
                  (Tracked.continue_next (Tracked.start "")))
         :: match reset with
            | Some reset_epoch =>
                [Sleep (Z.max 0
                          (reset_epoch - Tracked.current_epoch limited_run))]
            | None => []
            end.
Proof.
  apply (proj2 (proj2 (single_mode_one_iteration Maker.is_done "prompt"
                         wide_platform limited_run (Tracked.start "")))).
  vm_compute. reflexivity.
Defined.

(** X10. No script ever sleeps for a negative time: of what an iteration
    does, every sleep is for 0 seconds or more, so that [time.sleep] is
    not given a negative argument, whatever epoch the detector returned. *)
Theorem sleeps_never_negative :
  (forall is_complete PROMPT single_iteration range_error run st,
      forallb nonneg_sleep
        (fst (fst (Tracked.iteration is_complete PROMPT single_iteration
                     range_error run st)))
      = true)
  /\ (forall PROMPT utcoffset range_error run st,
         forallb nonneg_sleep
           (fst (fst (ClaudeLoop.iteration PROMPT utcoffset range_error run
                        st)))
         = true).
Proof.
  assert (Hmax : forall a, (0 <=? Z.max 0 a)%Z = true)
    by (intros a; apply Z.leb_le; lia).
  split.
  - intros is_complete PROMPT single_iteration range_error run st.
    unfold Tracked.iteration.
    destruct (feed _ _) as [stats1 [[]|e]]; [|reflexivity].
    destruct (is_complete _) as [[|]|e]; try reflexivity.
    destruct (Tracked.rate_limit_reset_epoch _) as [[reset_epoch|]|e];
      try reflexivity.
    + unfold announce_and_sleep. destruct (range_error _ _); [reflexivity|].
      destruct single_iteration; simpl; now rewrite Hmax.
    + now destruct single_iteration.
  - intros PROMPT utcoffset range_error run st. unfold ClaudeLoop.iteration.
    destruct (ClaudeLoop.rate_limit_reset_epoch _ _ _) as [[reset_epoch|]|e];
      try reflexivity.
    unfold announce_and_sleep. destruct (range_error _ _); [reflexivity|].
    simpl. now rewrite Hmax.
Qed.

(** *** A last line that is no JSON *)



Lemma claude_loop_detector_quiet (now : datetime) (utcoffset : Z)
    (raw : string) (e : exn) :
  raw = EmptyString \/ json_loads (strip raw) = Raise e ->
  ClaudeLoop.rate_limit_reset_epoch now utcoffset raw = Ret None.
Proof.
  intros [-> | H]; [reflexivity|].
  unfold ClaudeLoop.rate_limit_reset_epoch, ClaudeLoop.rate_limit_body.
  destruct (String.eqb raw EmptyString); [reflexivity|].
  rewrite H. now rewrite (json_loads_raises _ _ H).
Qed.



(** X12. In claude_loop.py, when the log ends on a line without [\u]
    that does not decode as JSON, or holds no line at all, the iteration
    pauses 60 seconds and the next child is started without
    --continue. *)
Theorem claude_loop_noise_keeps_looping (PROMPT : string) (utcoffset : Z)
    (range_error : platform) (run : ClaudeLoop.child_run)
    (st : ClaudeLoop.supervisor) (e : exn) :
  let log' :=
    ClaudeLoop.log st
    ++ String.concat EmptyString (ClaudeLoop.output run) in
  has_u_escape (last_json_line log') = false ->
  last_json_line log' = EmptyString
  \/ json_loads (strip (last_json_line log')) = Raise e ->
  ClaudeLoop.iteration PROMPT utcoffset range_error run st
  = ([Spawn (claude_cmd PROMPT (ClaudeLoop.continue_next st)); Sleep 60],
     Continue, ClaudeLoop.mk_supervisor false log').
Proof.
  intros log' _ Hn. unfold ClaudeLoop.iteration. fold log'.
  now rewrite (claude_loop_detector_quiet _ _ _ e Hn).
Qed.

Lemma claude_loop_noise_keeps_looping_example :
  ClaudeLoop.iteration "prompt" 0 wide_platform noisy_loop_run
    (ClaudeLoop.start "")
  = ([Spawn (claude_cmd "prompt" false); Sleep 60], Continue,
     ClaudeLoop.mk_supervisor false
       (String.concat EmptyString (ClaudeLoop.output noisy_loop_run))).
Proof.
  apply (claude_loop_noise_keeps_looping "prompt" 0 wide_platform
           noisy_loop_run (ClaudeLoop.start "") JSONDecodeError
           eq_refl (or_intror eq_refl)).
Defined.

(** *** A child that prints nothing *)

Lemma all_newlines_all_space (s : string) :
  all_newlines s = true -> all_space s = true.
Proof.
  induction s as [|c s IH]; simpl; [reflexivity|].
  intros H. apply andb_true_iff in H as [Hc Hs].
  apply Ascii.eqb_eq in Hc. subst c. now rewrite (IH Hs).
Qed.

Lemma strip_all_newlines (s : string) :
  all_newlines s = true -> strip s = EmptyString.
Proof.
  intros H. unfold strip.
  now rewrite (lstrip_all_space _ (all_newlines_all_space _ H)).
Qed.

Lemma concat_all_newlines (l : list string) :
  all_newlines (String.concat EmptyString l) = true ->
  Forall (fun x => all_newlines x = true) l.
Proof.
  induction l as [|x l IH]; [constructor|].
  rewrite concat_cons, all_newlines_app. intros H.
  apply andb_true_iff in H as [Hx Hl]. constructor; auto.
Qed.

Lemma feed_blank (l : list string) (self : StatsTracker) :
  Forall (fun x => all_newlines x = true) l ->
  feed (map strip l) self = (self, Ret tt).
Proof.
  induction 1 as [|x l Hx Hl IH]; [reflexivity|].
  simpl. rewrite (strip_all_newlines _ Hx). unfold bindM. simpl. exact IH.
Qed.

Lemma last_json_line_app_newlines (log nls : string) :
  all_newlines nls = true ->
  last_json_line (log ++ nls) = last_json_line log.
Proof.
  intros Hn. unfold last_json_line.
  now rewrite rev_app, (scan_back_skip _ _ (all_newlines_rev _ Hn)).
Qed.

(** The two iterations have come to the same point. *)
Ltac same_decision H :=
  cbn [fst snd Tracked.log Tracked.continue_next Tracked.stats
       ClaudeLoop.log ClaudeLoop.continue_next];
  rewrite ?last_json_line_app_newlines by exact H;
  repeat split; reflexivity.

(** X13. A child that prints nothing, or empty lines only, leads to what
    a child without output leads to: the supervisor decides on the last
    line the log had before, so that a rate-limit or completion record
    left there by an earlier run is acted on again. The events, the
    outcome, the flag and (in fixer.py and maker.py) the tracker are the
    same. *)
Theorem silent_child_decides_on_old_log :
  (forall is_complete PROMPT single_iteration range_error run st,
      all_newlines (String.concat EmptyString (Tracked.output run)) = true ->
      let r :=
        Tracked.iteration is_complete PROMPT single_iteration range_error
          run st in
      let r0 :=
        Tracked.iteration is_complete PROMPT single_iteration range_error
          (Tracked.mk_child_run [] (Tracked.current_epoch run)) st in
      fst r = fst r0
      /\ Tracked.continue_next (snd r) = Tracked.continue_next (snd r0)
      /\ Tracked.stats (snd r) = Tracked.stats (snd r0)
      /\ last_json_line (Tracked.log (snd r))
         = last_json_line (Tracked.log st))
  /\ (forall PROMPT utcoffset range_error run st,
         all_newlines (String.concat EmptyString (ClaudeLoop.output run))
         = true ->
         let r := ClaudeLoop.iteration PROMPT utcoffset range_error run st in
         let r0 :=
           ClaudeLoop.iteration PROMPT utcoffset range_error
             (ClaudeLoop.mk_child_run [] (ClaudeLoop.now run)
                (ClaudeLoop.current_epoch run)) st in
         fst r = fst r0
         /\ ClaudeLoop.continue_next (snd r)
            = ClaudeLoop.continue_next (snd r0)
         /\ last_json_line (ClaudeLoop.log (snd r))
            = last_json_line (ClaudeLoop.log st)).
Proof.
  split.
  - intros is_complete PROMPT single_iteration range_error run st H r r0.
    subst r r0. unfold Tracked.iteration.
    cbn [Tracked.output Tracked.current_epoch map String.concat feed].
    unfold lift at 1.
    rewrite (feed_blank _ _ (concat_all_newlines _ H)).
    rewrite append_empty_r, last_json_line_app_newlines by exact H.
    destruct (is_complete _) as [[|]|e]; try same_decision H.
    destruct (Tracked.rate_limit_reset_epoch _) as [[reset_epoch|]|e];
      try same_decision H.
    + destruct (announce_and_sleep _ _ _);
        [destruct single_iteration|]; same_decision H.
    + destruct single_iteration; same_decision H.
  - intros PROMPT utcoffset range_error run st H r r0.
    subst r r0. unfold ClaudeLoop.iteration.
    cbn [ClaudeLoop.output ClaudeLoop.current_epoch ClaudeLoop.now
         String.concat].
    rewrite append_empty_r, last_json_line_app_newlines by exact H.
    destruct (ClaudeLoop.rate_limit_reset_epoch _ _ _)
      as [[reset_epoch|]|e]; try same_decision H.
    destruct (announce_and_sleep _ _ _); same_decision H.
Qed.

Lemma silent_child_decides_on_old_log_example :
  let st := Tracked.mk_supervisor false init (scenario_A ++ line_feed) in
  let r := Tracked.iteration Maker.is_done "prompt" false wide_platform
             silent_run st in
  let r0 := Tracked.iteration Maker.is_done "prompt" false wide_platform
              (Tracked.mk_child_run [] (Tracked.current_epoch silent_run))
              st in
  fst r = fst r0
  /\ Tracked.continue_next (snd r) = Tracked.continue_next (snd r0)
  /\ Tracked.stats (snd r) = Tracked.stats (snd r0)
  /\ last_json_line (Tracked.log (snd r)) = last_json_line (Tracked.log st).
Proof.
  apply (proj1 silent_child_decides_on_old_log Maker.is_done "prompt" false
           wide_platform silent_run).
  reflexivity.
Defined.

(** *** claude_loop.py, iteration after iteration *)

Lemma claude_loop_trajectory_log (PROMPT : string) (utcoffset : Z)
    (range_error : platform) (runs : list ClaudeLoop.child_run) :
  forall (st : ClaudeLoop.supervisor) (n : nat) (st_n : ClaudeLoop.supervisor),
    nth_error (ClaudeLoop.trajectory PROMPT utcoffset range_error runs st) n
    = Some st_n ->
    ClaudeLoop.log st_n
    = ClaudeLoop.log st
      ++ String.concat EmptyString (written ClaudeLoop.output n runs).
Proof.
  induction runs as [|run runs IH]; intros st n st_n H.
  - apply nth_error_one in H as [-> ->]. simpl. now rewrite append_empty_r.
  - destruct n as [|n].
    + injection H as <-. simpl. now rewrite append_empty_r.
    + simpl in H.
      destruct (ClaudeLoop.iteration _ _ _ run st) as [[evs out] st'] eqn:Hi.
      destruct out; try (destruct n; discriminate).
      rewrite (IH st' n st_n H). unfold written. simpl.
      rewrite concat_app, <- append_assoc. f_equal.
      revert Hi. unfold ClaudeLoop.iteration.
      destruct (ClaudeLoop.rate_limit_reset_epoch _ _ _)
        as [[reset_epoch|]|e]; try discriminate.
      * destruct (announce_and_sleep _ _ _); [|discriminate].
        now intros [= <- <-].
      * now intros [= <- <-].
Qed.

Lemma claude_loop_trajectory_flag (PROMPT : string) (utcoffset : Z)
    (range_error : platform) (runs : list ClaudeLoop.child_run) :
  forall (st : ClaudeLoop.supervisor) (n : nat) (st_n : ClaudeLoop.supervisor)
         (run : ClaudeLoop.child_run),
    nth_error (ClaudeLoop.trajectory PROMPT utcoffset range_error runs st)
      (S n)
    = Some st_n ->
    nth_error runs n = Some run ->
    ClaudeLoop.continue_next st_n = true <->
    exists reset_epoch,
      ClaudeLoop.rate_limit_reset_epoch (ClaudeLoop.now run) utcoffset
        (last_json_line (ClaudeLoop.log st_n))
      = Ret (Some reset_epoch).
Proof.
  induction runs as [|run0 runs IH]; intros st n st_n run; simpl.
  - destruct n; discriminate.
  - destruct (ClaudeLoop.iteration _ _ _ run0 st) as [[evs out] st'] eqn:Hi.
    destruct out; try (destruct n; discriminate).
    destruct n as [|n].
    + intros H [= <-].
      assert (st_n = st') as -> by (destruct runs; simpl in H; congruence).
      destruct (claude_loop_iteration_continue _ _ _ _ _ _ _ Hi)
        as (reset & Hr & Hf & _).
      rewrite Hr, Hf. destruct reset as [e|].
      * split; [intros _; now exists e | reflexivity].
      * split; [discriminate | intros [e [=]]].
    + simpl. apply IH.
Qed.

(** X14. In a run of claude_loop.py, the log at the top of an iteration
    is the log the script found followed by all that the children so far
    wrote, and the command of an iteration has --continue exactly when
    the iteration is not the first and the detector returned a reset
    epoch when the iteration before asked it about the last line of that
    log. *)
Theorem claude_loop_trajectory_state (PROMPT : string) (utcoffset : Z)
    (range_error : platform) (log0 : string)
    (runs : list ClaudeLoop.child_run) (n : nat)
    (st : ClaudeLoop.supervisor) :
  PROMPT <> "--continue" ->
  nth_error
    (ClaudeLoop.trajectory PROMPT utcoffset range_error runs
       (ClaudeLoop.start log0)) n
  = Some st ->
  ClaudeLoop.log st
  = log0 ++ String.concat EmptyString (written ClaudeLoop.output n runs)
  /\ (In "--continue" (claude_cmd PROMPT (ClaudeLoop.continue_next st)) <->
      exists m run reset_epoch,
        n = S m
        /\ nth_error runs m = Some run
        /\ ClaudeLoop.rate_limit_reset_epoch (ClaudeLoop.now run) utcoffset
             (last_json_line (ClaudeLoop.log st))
           = Ret (Some reset_epoch)).
Proof.
  intros HP Hn. split; [exact (claude_loop_trajectory_log _ _ _ _ _ _ _ Hn)|].
  rewrite (claude_cmd_continue PROMPT _ HP).
  destruct n as [|n].
  - assert (st = ClaudeLoop.start log0) as ->.
    { destruct runs; simpl in Hn; now injection Hn. }
    simpl. split; [discriminate | intros (m & _ & _ & [=] & _)].
  - assert (Hrun : exists run, nth_error runs n = Some run).
    { clear HP. revert Hn. generalize (ClaudeLoop.start log0).
      revert n. induction runs as [|run0 runs IH]; intros n s; simpl.
      - destruct n; discriminate.
      - destruct (ClaudeLoop.iteration _ _ _ run0 s) as [[evs out] st'].
        destruct out; try (destruct n; discriminate).
        destruct n as [|n]; [intros _; now exists run0|].
        simpl. apply IH. }
    destruct Hrun as [run Hrun].
    rewrite (claude_loop_trajectory_flag _ _ _ _ _ _ _ run Hn Hrun).
    split.
    + intros [e He]. now exists n, run, e.
    + intros (m & run' & e & [= <-] & Hrun' & He).
      rewrite Hrun in Hrun'. injection Hrun' as <-. now exists e.
Qed.

Lemma claude_loop_trajectory_state_example :
  let st :=
    snd (ClaudeLoop.iteration "prompt" 0 wide_platform limited_loop_run
           (ClaudeLoop.start "earlier")) in
  ClaudeLoop.log st
  = "earlier"
    ++ String.concat EmptyString
         (written ClaudeLoop.output 1 [limited_loop_run; noisy_loop_run])
  /\ (In "--continue" (claude_cmd "prompt" (ClaudeLoop.continue_next st)) <->
      exists m run reset_epoch,
        1%nat = S m
        /\ nth_error [limited_loop_run; noisy_loop_run] m = Some run
        /\ ClaudeLoop.rate_limit_reset_epoch (ClaudeLoop.now run) 0
             (last_json_line (ClaudeLoop.log st))
           = Ret (Some reset_epoch)).
Proof.
  apply (claude_loop_trajectory_state "prompt" 0 wide_platform "earlier"
           [limited_loop_run; noisy_loop_run] 1%nat);
    [discriminate | vm_compute; reflexivity].
Defined.

(** ** The clock time of a reset, again *)

(** X15. When the clock branch of the detector of claude_loop.py returns
    an epoch, it is the epoch of today at an hour of the day after the
    hour of now: never that of a time on the day after, the case of a
    time already reached having raised before. *)
Theorem clock_epoch_is_today (now : datetime) (utcoffset : Z)
    (caps : captures) (e : Z) :
  valid_time now = true ->
  ClaudeLoop.reset_epoch_of_match now utcoffset caps = Ret e ->
  exists h24,
    (hour now < h24 < 24)%Z
    /\ e = timestamp utcoffset (mk_datetime (ordinal now) h24 0 0 0).
Proof.
  intros V. unfold ClaudeLoop.reset_epoch_of_match.
  destruct (int_of_str (group 1 caps)) as [h|x]; [|discriminate].
  simpl. fold (hour24 h (lower (group 2 caps))).
  set (h24 := hour24 h (lower (group 2 caps))).
  unfold replace_hour.
  destruct ((0 <=? h24)%Z && (h24 <? 24)%Z) eqn:Hr; [|discriminate].
  simpl. rewrite (dt_le_today now h24 V).
  destruct (h24 <=? hour now)%Z eqn:Hle; [discriminate|].
  simpl. intros [= <-]. exists h24.
  apply andb_true_iff in Hr as [H0 H24].
  apply Z.ltb_lt in H24. apply Z.leb_gt in Hle.
  split; [lia | reflexivity].
Qed.

Lemma clock_epoch_is_today_example :
  exists h24,
    (hour half_past_ten < h24 < 24)%Z
    /\ timestamp 0 (mk_datetime 739000 15 0 0 0)
       = timestamp 0 (mk_datetime (ordinal half_past_ten) h24 0 0 0).
Proof.
  apply (clock_epoch_is_today half_past_ten 0 [(2%nat, "pm"); (1%nat, "3")]);
    reflexivity.
Defined.

(** What the handler of the detector makes of the clock branch *)
Lemma clock_outcome (now : datetime) (utcoffset : Z) (caps : captures)
    (h : Z) :
  valid_time now = true ->
  int_of_str (group 1 caps) = Ret h ->
  let h24 := hour24 h (lower (group 2 caps)) in
  try_except
    (e <- ClaudeLoop.reset_epoch_of_match now utcoffset caps ;; Ret (Some e))
    [JSONDecodeError; ValueError; IndexError] (fun _ => Ret None)
  = if ((h24 <? 0) || (24 <=? h24))%Z then Ret None
    else if (h24 <=? hour now)%Z then Raise NameError
    else Ret (Some (timestamp utcoffset
                      (mk_datetime (ordinal now) h24 0 0 0))).
Proof.
  intros V Hh h24.
  destruct ((h24 <? 0) || (24 <=? h24))%Z eqn:Hout.
  - unfold ClaudeLoop.reset_epoch_of_match. rewrite Hh. unfold bind at 2.
    fold (hour24 h (lower (group 2 caps))). fold h24. unfold replace_hour.
    replace ((0 <=? h24)%Z && (h24 <? 24)%Z) with false; [reflexivity|].
    symmetry. apply orb_true_iff in Hout as [H|H].
    + apply Z.ltb_lt in H. apply andb_false_iff. left. apply Z.leb_gt. lia.
    + apply Z.leb_le in H. apply andb_false_iff. right. apply Z.ltb_ge. lia.
  - apply orb_false_iff in Hout as [H0 H24].
    apply Z.ltb_ge in H0. apply Z.leb_gt in H24.
    rewrite (reset_epoch_of_match_cases now utcoffset caps h V Hh)
      by (fold h24; lia).
    fold h24. destruct (h24 <=? hour now)%Z; reflexivity.
Qed.

(** X16. In claude_loop.py, an error record whose result has the phrase
    and a clock time is decided by the clock time alone: no reset when
    its hour is no hour of the day, [NameError] when the hour is reached,
    the epoch of today at that hour otherwise. An epoch after a pipe in
    the same result is not looked at. *)
Theorem clock_time_decides (now : datetime) (utcoffset : Z) (raw : string)
    (d : list (string * json)) (is_error : json) (result : string)
    (caps : captures) (h : Z) :
  valid_time now = true ->
  json_loads (strip raw) = Ret (JObject d) ->
  dict_get "is_error" d = Some is_error ->
  truthy is_error = true ->
  dict_get "result" d = Some (JString result) ->
  search ClaudeLoop.RATE_LIMIT_MSG result <> None ->
  search ClaudeLoop.RESET_TIME_PATTERN result = Some caps ->
  int_of_str (group 1 caps) = Ret h ->
  let h24 := hour24 h (lower (group 2 caps)) in
  ClaudeLoop.rate_limit_reset_epoch now utcoffset raw =
  if ((h24 <? 0) || (24 <=? h24))%Z then Ret None
  else if (h24 <=? hour now)%Z then Raise NameError
  else Ret (Some (timestamp utcoffset (mk_datetime (ordinal now) h24 0 0 0))).
Proof.
  intros V Hd He Ht Hr Hs Hc Hh h24.
  unfold ClaudeLoop.rate_limit_reset_epoch, ClaudeLoop.rate_limit_body.
  rewrite (loads_nonempty _ _ Hd), Hd. unfold bind at 1.
  rewrite (get_some _ _ _ _ He). unfold bind at 1. rewrite Ht.
  unfold has, dict_mem. rewrite Hr. unfold bind at 1.
  unfold getitem. rewrite Hr. unfold bind at 1.
  unfold re_search. unfold bind at 1.
  destruct (search ClaudeLoop.RATE_LIMIT_MSG result); [|congruence].
  unfold bind at 1. rewrite Hc.
  exact (clock_outcome now utcoffset caps h V Hh).
Qed.

Lemma clock_time_decides_example :
  ClaudeLoop.rate_limit_reset_epoch half_past_ten 0 late_clock = Ret None.
Proof.
  apply (clock_time_decides half_past_ten 0 late_clock
           [("is_error", JBool true);
            ("result",
             JString "Claude limit reached, resets 13pm|1700000000")]
           (JBool true) "Claude limit reached, resets 13pm|1700000000"
           [(2%nat, "pm"); (1%nat, "13")] 13);
    try reflexivity.
  vm_compute. discriminate.
Defined.

(** *** The content items of an assistant message *)

Lemma scan_content_inert (now : datetime) (utcoffset : Z) (item : json)
    (rest : list json) :
  inert item = true ->
  ClaudeLoop.scan_content now utcoffset (item :: rest)
  = ClaudeLoop.scan_content now utcoffset rest.
Proof.
  intros H. destruct item as [| | | | | | |d]; try discriminate.
  unfold inert in H. cbn [ClaudeLoop.scan_content]. unfold get.
  destruct (dict_get "type" d) as [ty|]; [|reflexivity].
  destruct ty as [| | | | |ty| |]; try reflexivity.
  unfold bind at 1. unfold is_str.
  destruct (String.eqb ty "text"); [|reflexivity].
  destruct (dict_get "text" d) as [tx|]; [|reflexivity].
  destruct tx as [| | | | |text| |]; try discriminate.
  unfold bind at 1. unfold re_search. unfold bind at 1.
  destruct (search ClaudeLoop.RATE_LIMIT_MSG text); [|reflexivity].
  unfold bind at 1.
  destruct (search ClaudeLoop.RESET_TIME_PATTERN text);
    [discriminate | reflexivity].
Qed.

Lemma scan_content_skips (now : datetime) (utcoffset : Z)
    (skipped rest : list json) :
  forallb inert skipped = true ->
  ClaudeLoop.scan_content now utcoffset (skipped ++ rest)
  = ClaudeLoop.scan_content now utcoffset rest.
Proof.
  induction skipped as [|item skipped IH]; [reflexivity|].
  intros H. simpl in H. apply andb_true_iff in H as [Hi Hs].
  change ((item :: skipped) ++ rest)%list
    with (item :: (skipped ++ rest))%list.
  now rewrite (scan_content_inert _ _ _ _ Hi), (IH Hs).
Qed.

(** X17. In claude_loop.py, for an assistant record that is no error
    record with a result, the first text item of the message that has
    both the phrase and a clock time decides, whatever comes after it;
    the items before it are passed over when each is an object that is
    no text item or a text item without the phrase or without a clock
    time. The outcome is that of the clock time: no reset when its hour
    is no hour of the day, [NameError] when the hour is reached, the
    epoch of today at that hour otherwise. *)
Theorem first_clock_text_decides (now : datetime) (utcoffset : Z)
    (raw : string) (d message item : list (string * json))
    (skipped rest : list json) (text : string) (caps : captures) (h : Z) :
  valid_time now = true ->
  json_loads (strip raw) = Ret (JObject d) ->
  error_with_result d = false ->
  dict_get "type" d = Some (JString "assistant") ->
  dict_get "message" d = Some (JObject message) ->
  dict_get "content" message
  = Some (JArray (skipped ++ JObject item :: rest)) ->
  forallb inert skipped = true ->
  dict_get "type" item = Some (JString "text") ->
  dict_get "text" item = Some (JString text) ->
  search ClaudeLoop.RATE_LIMIT_MSG text <> None ->
  search ClaudeLoop.RESET_TIME_PATTERN text = Some caps ->
  int_of_str (group 1 caps) = Ret h ->
  let h24 := hour24 h (lower (group 2 caps)) in
  ClaudeLoop.rate_limit_reset_epoch now utcoffset raw =
  if ((h24 <? 0) || (24 <=? h24))%Z then Ret None
  else if (h24 <=? hour now)%Z then Raise NameError
  else Ret (Some (timestamp utcoffset (mk_datetime (ordinal now) h24 0 0 0))).
Proof.
  intros V Hd He Hty Hm Hc Hsk Hity Htx Hs Hcaps Hh h24.
  unfold ClaudeLoop.rate_limit_reset_epoch, ClaudeLoop.rate_limit_body.
  rewrite (loads_nonempty _ _ Hd), Hd. unfold bind at 1.
  assert (Hno :
            (is_error <- get (JObject d) "is_error" JNull ;;
             (if truthy is_error then has "result" (JObject d)
              else Ret false))
            = Ret false).
  { unfold error_with_result in He. unfold get, has.
    destruct (dict_get "is_error" d) as [v|]; [|reflexivity].
    unfold bind. destruct (truthy v); [|reflexivity].
    simpl in He. now rewrite He. }
  unfold bind at 1 in Hno. unfold bind at 1.
  destruct (get (JObject d) "is_error" JNull) as [is_error|x];
    [|discriminate].
  unfold bind at 1. rewrite Hno.
  rewrite (get_some _ _ _ _ Hty). unfold bind at 1.
  change (is_str (JString "assistant") "assistant") with true. cbv iota.
  rewrite (get_some _ _ _ _ Hm). unfold bind at 1.
  rewrite (get_some _ _ _ _ Hc). unfold bind at 1.
  unfold iter. unfold bind at 1.
  rewrite (scan_content_skips _ _ _ _ Hsk).
  cbn [ClaudeLoop.scan_content].
  rewrite (get_some _ _ _ _ Hity). unfold bind at 1.
  change (is_str (JString "text") "text") with true. cbv iota.
  rewrite (get_some _ _ _ _ Htx). unfold bind at 1.
  unfold re_search. unfold bind at 1.
  destruct (search ClaudeLoop.RATE_LIMIT_MSG text); [|congruence].
  unfold bind at 1. rewrite Hcaps.
  exact (clock_outcome now utcoffset caps h V Hh).
Qed.

Lemma first_clock_text_decides_example :
  ClaudeLoop.rate_limit_reset_epoch half_past_ten 0 clock_after_tool
  = Ret (Some (timestamp 0 (mk_datetime 739000 15 0 0 0))).
Proof.
  apply (first_clock_text_decides half_past_ten 0 clock_after_tool
           [("type", JString "assistant");
            ("message",
             JObject
               [("content",
                 JArray
                   [JObject [("type", JString "tool_use");
                             ("name", JString "Bash")];
                    JObject [("type", JString "text");
                             ("text",
                              JString "Usage limit reached, resets 3pm")]])])]
           [("content",
             JArray
               [JObject [("type", JString "tool_use");
                         ("name", JString "Bash")];
                JObject [("type", JString "text");
                         ("text",
                          JString "Usage limit reached, resets 3pm")]])]
           [("type", JString "text");
            ("text", JString "Usage limit reached, resets 3pm")]
           [JObject [("type", JString "tool_use"); ("name", JString "Bash")]]
           [] "Usage limit reached, resets 3pm"
           [(2%nat, "pm"); (1%nat, "3")] 3);
    try reflexivity.
  vm_compute. discriminate.
Defined.

(** ** The usage accumulator, again *)

(** X18. [parse_usage_from_json] does not undo what it has added when a
    later count of the same line makes it raise: with an integer count
    of input tokens and an output count that is a string, the input
    total has grown by the count when the [TypeError] leaves the call. *)
Theorem usage_update_not_atomic (raw : string) (d u : list (string * json))
    (c : Z) (v : string) (i o r w n : Z) :
  json_loads (strip raw) = Ret (JObject d) ->
  dict_get "usage" d = Some (JObject u) ->
  count "input_tokens" u = Some c ->
  dict_get "output_tokens" u = Some (JString v) ->
  parse_usage_from_json raw (mk_stats (Int i) (Int o) (Int r) (Int w) n)
  = (mk_stats (Int (i + c)) (Int o) (Int r) (Int w) n, Raise TypeError).
Proof.
  intros Hd Hu Hc Ho. unfold parse_usage_from_json, parse_usage_body.
  rewrite (loads_nonempty _ _ Hd).
  unfold bindM, iadd, lift. rewrite Hd.
  rewrite (get_some _ _ _ _ Hu), (get_count _ _ _ Hc),
    (get_some _ _ _ _ Ho).
  reflexivity.
Qed.

Lemma usage_update_not_atomic_example :
  parse_usage_from_json half_good_usage
    (mk_stats (Int 1) (Int 2) (Int 3) (Int 4) 1)
  = (mk_stats (Int (1 + 7)) (Int 2) (Int 3) (Int 4) 1, Raise TypeError).
Proof.
  apply (usage_update_not_atomic half_good_usage
           [("usage",
             JObject [("input_tokens", JInt 7);
                      ("output_tokens", JString "many")])]
           [("input_tokens", JInt 7); ("output_tokens", JString "many")]
           7 "many");
    reflexivity.
Defined.

(** ** The classifier, again *)

(** X20. On the Python path of the classifier, an assistant record whose
    first content item is a tool call is shown, with the name of the
    tool or [unknown], only when the call is the one item of the
    message; with anything after it nothing is shown. This is also what
    [extract_summary_with_jq] answers when [jq] cannot be run. *)
Theorem tool_use_shown_alone (jq : string -> string -> result (Z * string))
    (json_line : string) (d message item : list (string * json))
    (rest : list json) :
  json_loads (strip json_line) = Ret (JObject d) ->
  dict_get "type" d = Some (JString "assistant") ->
  dict_get "message" d = Some (JObject message) ->
  dict_get "content" message = Some (JArray (JObject item :: rest)) ->
  dict_get "type" item = Some (JString "tool_use") ->
  let shown :=
    match rest with
    | [] =>
        Some (ToolUse match dict_get "name" item with
                      | Some tool_name => tool_name
                      | None => JString "unknown"
                      end)
    | _ :: _ => None
    end in
  summary_python json_line = shown
  /\ ((forall filter stdin, exists e, jq filter stdin = Raise e) ->
      extract_summary_with_jq jq json_line = shown).
Proof.
  intros Hd Hty Hm Hc Hity shown.
  assert (Hpy : summary_python json_line = shown).
  { unfold summary_python, summary_python_body. rewrite Hd.
    unfold bind at 1. rewrite (get_some _ _ _ _ Hty). unfold bind at 1.
    change (is_str (JString "assistant") "assistant") with true. cbv iota.
    rewrite (get_some _ _ _ _ Hm). unfold bind at 1.
    rewrite (get_some _ _ _ _ Hc). unfold bind at 1.
    unfold truthy, len, List.length.
    change (0 <? S (Datatypes.length rest))%nat with true.
    unfold andb. unfold bind at 1. unfold item0.
    unfold bind at 1. rewrite (get_some _ _ _ _ Hity). unfold bind at 1.
    change (is_str (JString "tool_use") "text") with false.
    change (is_str (JString "tool_use") "tool_use") with true. cbv iota.
    subst shown. unfold get.
    destruct (dict_get "name" item); destruct rest; reflexivity. }
  split; [exact Hpy|].
  intros Hfail. unfold extract_summary_with_jq.
  replace (String.eqb (strip json_line) EmptyString) with false
    by (destruct (strip json_line); [discriminate | reflexivity]).
  unfold summary_jq_body.
  destruct (Hfail "." (strip json_line)) as [e He]. rewrite He.
  exact Hpy.
Qed.

Lemma tool_use_shown_alone_example :
  summary_python tool_and_text_line = None
  /\ ((forall filter stdin, exists e, failing_jq filter stdin = Raise e) ->
      extract_summary_with_jq failing_jq tool_and_text_line = None).
Proof.
  apply (tool_use_shown_alone failing_jq tool_and_text_line
           [("type", JString "assistant");
            ("message",
             JObject
               [("content",
                 JArray
                   [JObject [("type", JString "tool_use");
                             ("name", JString "Bash")];
                    JObject [("type", JString "text");
                             ("text", JString "ok")]])])]
           [("content",
             JArray
               [JObject [("type", JString "tool_use");
                         ("name", JString "Bash")];
                JObject [("type", JString "text"); ("text", JString "ok")]])]
           [("type", JString "tool_use"); ("name", JString "Bash")]
           [JObject [("type", JString "text"); ("text", JString "ok")]]);
    reflexivity.
Defined.

(** ** Lines that are JSON but no record *)







(** X22. On a line that decodes to a value within the limits of the
    interpreter, [is_done] and [is_actually_working] raise in two cases
    and no other: the value is no object and the test for [result] in it
    does not answer False ([TypeError]: a number, a boolean, null, or a
    string or a list with [result] in it), or it is an object whose
    [result] is no string ([AttributeError]). *)
Theorem completion_raises_iff (raw : string) (data : json) (e : exn) :
  json_loads (strip raw) = Ret data ->
  within_limits data = true ->
  let raises (is_complete : string -> result bool) :=
    is_complete raw = Raise e <->
    (is_object data = false
     /\ has "result" data <> Ret false
     /\ e = TypeError)
    \/ (exists d result,
           data = JObject d
           /\ dict_get "result" d = Some result
           /\ is_string result = false
           /\ e = AttributeError) in
  raises Maker.is_done /\ raises Fixer.is_actually_working.
Proof.
  intros Hd _.
  assert (H : forall test,
             Tracked.completion test raw = Raise e <->
             (is_object data = false
              /\ has "result" data <> Ret false
              /\ e = TypeError)
             \/ (exists d result,
                    data = JObject d
                    /\ dict_get "result" d = Some result
                    /\ is_string result = false
                    /\ e = AttributeError)).
  { intros test. unfold Tracked.completion.
    rewrite (loads_nonempty _ _ Hd), Hd. clear Hd. split.
    - destruct data as [| | | | |s|l|d]; simpl;
        try (intros [= <-]; left; repeat split; discriminate).
      + destruct (contains "result" s) eqn:Hc; simpl; [|discriminate].
        intros [= <-]. left. repeat split. discriminate.
      + destruct (existsb _ l) eqn:Hc; simpl; [|discriminate].
        intros [= <-]. left. repeat split. discriminate.
      + unfold dict_mem.
        destruct (dict_get "result" d) as [x|] eqn:Hx; simpl;
          [|discriminate].
        destruct x; simpl; try discriminate;
          intros [= <-]; right; exists d; eexists;
          (split; [reflexivity | split; [exact Hx | split; reflexivity]]).
    - intros [(Ho & Hh & ->) | (d & result & -> & Hr & Hs & ->)].
      + destruct data as [| | | | |s|l|d]; try discriminate; try reflexivity.
        * simpl in *. destruct (contains "result" s); [reflexivity|].
          now elim Hh.
        * simpl in *. destruct (existsb _ l); [reflexivity|]. now elim Hh.
      + simpl. unfold dict_mem. rewrite Hr. simpl.
        destruct result; try discriminate; reflexivity. }
  intros raises. split; apply H.
Qed.

Lemma completion_raises_iff_example :
  (is_object (JObject [("result", JNull)]) = false
   /\ has "result" (JObject [("result", JNull)]) <> Ret false
   /\ AttributeError = TypeError)
  \/ (exists d result,
         JObject [("result", JNull)] = JObject d
         /\ dict_get "result" d = Some result
         /\ is_string result = false
         /\ AttributeError = AttributeError).
Proof.
  apply (proj1 (proj1 (completion_raises_iff null_result
                         (JObject [("result", JNull)]) AttributeError
                         eq_refl eq_refl))).
  reflexivity.
Defined.

(** X23. In claude_loop.py, a last line of the log that is JSON but no
    object ends the supervisor: the detector raises [AttributeError],
    which its handler does not name, and the exception leaves [main]
    once the child has been spawned, nothing being slept. *)
Theorem claude_loop_stray_last_line_crashes (PROMPT : string)
    (utcoffset : Z) (range_error : platform) (run : ClaudeLoop.child_run)
    (st : ClaudeLoop.supervisor) (data : json) :
  let log' :=
    ClaudeLoop.log st
    ++ String.concat EmptyString (ClaudeLoop.output run) in
  json_loads (strip (last_json_line log')) = Ret data ->
  is_object data = false ->
  ClaudeLoop.iteration PROMPT utcoffset range_error run st
  = ([Spawn (claude_cmd PROMPT (ClaudeLoop.continue_next st))],
     Crashed AttributeError, ClaudeLoop.mk_supervisor false log').
Proof.
  intros log' Hd Ho. unfold ClaudeLoop.iteration. fold log'.
  unfold ClaudeLoop.rate_limit_reset_epoch, ClaudeLoop.rate_limit_body.
  rewrite (loads_nonempty _ _ Hd), Hd.
  destruct data; try discriminate; reflexivity.
Qed.

Lemma claude_loop_stray_last_line_crashes_example :
  ClaudeLoop.iteration "prompt" 0 wide_platform stray_loop_run
    (ClaudeLoop.start "")
  = ([Spawn (claude_cmd "prompt" false)], Crashed AttributeError,
     ClaudeLoop.mk_supervisor false
       (String.concat EmptyString (ClaudeLoop.output stray_loop_run))).
Proof.
  apply (claude_loop_stray_last_line_crashes "prompt" 0 wide_platform
           stray_loop_run (ClaudeLoop.start "") (JString "done"));
    reflexivity.
Defined.
